(** * OrganChain: the registry chaincode and the matching algorithm

    A shallow embedding of
      - [chaincode/organchain/organchain.go]: the Hyperledger Fabric chaincode
        that keeps patients, donors, hospitals and matches in the world state;
      - the hospital portal's [canReceiveFrom] and [runMatching] (React front
        end), which score the donors of the registry against one patient;
      - the [/api/hospitals] handler of the backend.

    Conventions.
      - The world state is a finite map from keys to JSON documents.  Every
        [PutState] of the chaincode writes the [json.Marshal] of one of its
        four structs, so a stored value is a JSON object whose members are
        strings, booleans, string arrays or [null].
      - A chaincode function takes the world state and returns either an
        error message or its result; a submitted transaction that returns an
        error commits nothing.  No function of the contract reads a key after
        writing it in the same invocation, so threading the state through the
        writes agrees with Fabric's read set / write set execution.
      - [time.Now().Format(time.RFC3339)] is the argument [now].
      - JavaScript numbers are modelled as exact rationals: IEEE-754 rounding
        and the values NaN and Infinity are outside the model. *)

From Stdlib Require Import Ascii String QArith Qabs Qround Qminmax Lqa.
From Stdlib Require OrderedTypeEx.
From stdpp Require Import gmap strings list fin_maps sorting pretty.

Local Open Scope string_scope.

(** ** Go's [(value, error)] results *)

Inductive result (A : Type) : Type :=
  | Ok (a : A)
  | Err (msg : string).
Arguments Ok {A} a.
Arguments Err {A} msg.

Definition is_ok {A} (r : result A) : bool :=
  match r with Ok _ => true | Err _ => false end.

(** ** JSON documents *)

(** A JSON value.  The records the contract stores hold strings, booleans,
    string arrays and [null] only, but an argument that is JSON text (the
    organs of [CreateDonor]) can be any value; a number is kept as its
    literal. *)
#[local] Set Warnings "-register-all".

Inductive jval : Type :=
  | JNull
  | JBool (b : bool)
  | JNum (literal : string)
  | JStr (s : string)
  | JArr (elems : list jval)
  | JObj (members : list (string * jval)).

#[local] Set Warnings "register-all".

(** An array of strings. *)
Definition JStrs (l : list string) : jval := JArr (JStr <$> l).

(** An object is the list of its members in document order.  The contract
    stores only what [json.Marshal] made of its structs: the member names are
    the struct tags, each once; decoding finds a member by its exact tag. *)
Definition jobj : Type := list (string * jval).

Fixpoint member (k : string) (o : jobj) : option jval :=
  match o with
  | [] => None
  | (k', v) :: o' => if String.eqb k k' then Some v else member k o'
  end.

(** [json.Unmarshal] into a struct field.  A missing member and [null] leave
    the zero value; a member of another JSON type leaves the zero value too
    and makes [Unmarshal] report an [UnmarshalTypeError] once the whole
    document has been decoded. *)
Definition getString (o : jobj) (k : string) : string :=
  match member k o with Some (JStr s) => s | _ => "" end.

Definition getBool (o : jobj) (k : string) : bool :=
  match member k o with Some (JBool b) => b | _ => false end.

(** An element of an array decoded into a [[]string]: a string is taken,
    [null] leaves the element at its zero value, and anything else leaves it
    there too and is a type error. *)
Definition elemString (v : jval) : string :=
  match v with JStr s => s | _ => "" end.

Definition fitsElem (v : jval) : bool :=
  match v with JNull | JStr _ => true | _ => false end.

(** A Go slice is [nil] ([None]) or holds a list, possibly empty. *)
Definition getStrings (o : jobj) (k : string) : option (list string) :=
  match member k o with
  | Some (JArr elems) => Some (elemString <$> elems)
  | _ => None
  end.

Definition fitsString (o : jobj) (k : string) : bool :=
  match member k o with
  | None | Some JNull | Some (JStr _) => true
  | _ => false
  end.

Definition fitsBool (o : jobj) (k : string) : bool :=
  match member k o with
  | None | Some JNull | Some (JBool _) => true
  | _ => false
  end.

Definition fitsStrings (o : jobj) (k : string) : bool :=
  match member k o with
  | None | Some JNull => true
  | Some (JArr elems) => forallb fitsElem elems
  | _ => false
  end.

Definition marshalStrings (l : option (list string)) : jval :=
  match l with None => JNull | Some l => JStrs l end.

(** The text of the error [json.Unmarshal] returns is not modelled. *)
Definition jsonError : string := "json: cannot unmarshal".

(** ** The four record types of the chaincode *)

Module Patient.
Record t : Type := mk {
  ID : string;
  NameHash : string;
  BloodType : string;
  HLA : string;
  OrganNeeded : string;
  IPFSHash : string;
  Status : string;
  HospitalID : string;
  DocType : string;
  CreatedAt : string
}.

Definition setStatus (s : string) (p : t) : t :=
  mk (ID p) (NameHash p) (BloodType p) (HLA p) (OrganNeeded p) (IPFSHash p)
     s (HospitalID p) (DocType p) (CreatedAt p).

Definition marshal (p : t) : jobj :=
  [ ("id", JStr (ID p)); ("nameHash", JStr (NameHash p));
    ("bloodType", JStr (BloodType p)); ("hla", JStr (HLA p));
    ("organNeeded", JStr (OrganNeeded p)); ("ipfsHash", JStr (IPFSHash p));
    ("status", JStr (Status p)); ("hospitalId", JStr (HospitalID p));
    ("docType", JStr (DocType p)); ("createdAt", JStr (CreatedAt p)) ].

Definition unmarshal (o : jobj) : t :=
  mk (getString o "id") (getString o "nameHash") (getString o "bloodType")
     (getString o "hla") (getString o "organNeeded") (getString o "ipfsHash")
     (getString o "status") (getString o "hospitalId")
     (getString o "docType") (getString o "createdAt").

Definition fits (o : jobj) : bool :=
  forallb (fitsString o)
    [ "id"; "nameHash"; "bloodType"; "hla"; "organNeeded"; "ipfsHash";
      "status"; "hospitalId"; "docType"; "createdAt" ].
End Patient.

Module Donor.
Record t : Type := mk {
  ID : string;
  Name : string;
  Email : string;
  Phone : string;
  BloodType : string;
  HLA : string;
  OrgansAvailable : option (list string);
  IPFSHash : string;
  ConsentHash : string;
  VerificationStatus : string;
  VerifiedBy : string;
  DocType : string;
  CreatedAt : string
}.

Definition setOrgansAvailable (l : option (list string)) (d : t) : t :=
  mk (ID d) (Name d) (Email d) (Phone d) (BloodType d) (HLA d) l
     (IPFSHash d) (ConsentHash d) (VerificationStatus d) (VerifiedBy d)
     (DocType d) (CreatedAt d).

Definition setVerification (status by_ : string) (d : t) : t :=
  mk (ID d) (Name d) (Email d) (Phone d) (BloodType d) (HLA d)
     (OrgansAvailable d) (IPFSHash d) (ConsentHash d) status by_
     (DocType d) (CreatedAt d).

Definition marshal (d : t) : jobj :=
  [ ("id", JStr (ID d)); ("name", JStr (Name d)); ("email", JStr (Email d));
    ("phone", JStr (Phone d)); ("bloodType", JStr (BloodType d));
    ("hla", JStr (HLA d));
    ("organsAvailable", marshalStrings (OrgansAvailable d));
    ("ipfsHash", JStr (IPFSHash d)); ("consentHash", JStr (ConsentHash d));
    ("verificationStatus", JStr (VerificationStatus d));
    ("verifiedBy", JStr (VerifiedBy d)); ("docType", JStr (DocType d));
    ("createdAt", JStr (CreatedAt d)) ].

Definition unmarshal (o : jobj) : t :=
  mk (getString o "id") (getString o "name") (getString o "email")
     (getString o "phone") (getString o "bloodType") (getString o "hla")
     (getStrings o "organsAvailable")
     (getString o "ipfsHash") (getString o "consentHash")
     (getString o "verificationStatus") (getString o "verifiedBy")
     (getString o "docType") (getString o "createdAt").

Definition fits (o : jobj) : bool :=
  forallb (fitsString o)
    [ "id"; "name"; "email"; "phone"; "bloodType"; "hla"; "ipfsHash";
      "consentHash"; "verificationStatus"; "verifiedBy"; "docType";
      "createdAt" ]
  && fitsStrings o "organsAvailable".

(** [if donor.OrgansAvailable == nil { donor.OrgansAvailable = []string{} }] *)
Definition ensureOrgans (d : t) : t :=
  match OrgansAvailable d with
  | None => setOrgansAvailable (Some []) d
  | Some _ => d
  end.

Definition organs (d : t) : list string := default [] (OrgansAvailable d).
End Donor.

Module Match.
Record t : Type := mk {
  ID : string;
  PatientID : string;
  DonorID : string;
  OrganType : string;
  HLAScore : string;
  Status : string;
  DocType : string;
  CreatedAt : string;
  ApprovedBy : string
}.

Definition marshal (m : t) : jobj :=
  [ ("id", JStr (ID m)); ("patientId", JStr (PatientID m));
    ("donorId", JStr (DonorID m)); ("organType", JStr (OrganType m));
    ("hlaScore", JStr (HLAScore m)); ("status", JStr (Status m));
    ("docType", JStr (DocType m)); ("createdAt", JStr (CreatedAt m));
    ("approvedBy", JStr (ApprovedBy m)) ].

Definition unmarshal (o : jobj) : t :=
  mk (getString o "id") (getString o "patientId") (getString o "donorId")
     (getString o "organType") (getString o "hlaScore")
     (getString o "status") (getString o "docType")
     (getString o "createdAt") (getString o "approvedBy").

Definition fits (o : jobj) : bool :=
  forallb (fitsString o)
    [ "id"; "patientId"; "donorId"; "organType"; "hlaScore"; "status";
      "docType"; "createdAt"; "approvedBy" ].
End Match.

Module Hospital.
Record t : Type := mk {
  ID : string;
  Name : string;
  PasswordHash : string;
  Location : string;
  DocType : string;
  CreatedAt : string;
  IsActive : bool
}.

Definition marshal (h : t) : jobj :=
  [ ("id", JStr (ID h)); ("name", JStr (Name h));
    ("passwordHash", JStr (PasswordHash h));
    ("location", JStr (Location h)); ("docType", JStr (DocType h));
    ("createdAt", JStr (CreatedAt h)); ("isActive", JBool (IsActive h)) ].

Definition unmarshal (o : jobj) : t :=
  mk (getString o "id") (getString o "name") (getString o "passwordHash")
     (getString o "location") (getString o "docType")
     (getString o "createdAt") (getBool o "isActive").

Definition fits (o : jobj) : bool :=
  forallb (fitsString o)
    [ "id"; "name"; "passwordHash"; "location"; "docType"; "createdAt" ]
  && fitsBool o "isActive".
End Hospital.

(** ** The record store: Fabric's world state *)

Abbreviation WorldState := (gmap string jobj).

Definition GetState (st : WorldState) (key : string) : option jobj := st !! key.

Definition PutState (key : string) (value : jobj) (st : WorldState) : WorldState :=
  <[key := value]> st.

Definition DelState (key : string) (st : WorldState) : WorldState :=
  delete key st.

(** [GetStateByRange(startKey, endKey)]: the entries with
    [startKey <= key < endKey], in the byte order of their keys. *)
Definition keyLe (a b : string * jobj) : Prop := String.leb a.1 b.1 = true.

Global Instance keyLe_dec a b : Decision (keyLe a b).
Proof. unfold keyLe. apply _. Defined.

Definition inRange (startKey endKey : string) (kv : string * jobj) : Prop :=
  String.leb startKey kv.1 = true ∧ String.ltb kv.1 endKey = true.

Global Instance inRange_dec startKey endKey kv : Decision (inRange startKey endKey kv).
Proof. unfold inRange. apply _. Defined.

Definition GetStateByRange (st : WorldState) (startKey endKey : string)
  : list (string * jobj) :=
  merge_sort keyLe (filter (inRange startKey endKey) (map_to_list st)).

(** ** The chaincode *)

Section Chaincode.

(** [time.Now().Format(time.RFC3339)] of the invocation. *)
Variable now : string.

(** *** Seeding: every [time.Now()] of the invocation formats to [now] *)

Definition seedPatients : list Patient.t :=
  [ Patient.mk "PAT-001" "8f4343..." "A+" "A2, A24, B35, B44, DR1, DR4"
      "Kidney" "QmXyZ...123" "WAITING" "HOSP-NY" "patient" now;
    Patient.mk "PAT-002" "9a7121..." "O-" "A1, A3, B7, B8, DR15, DR17"
      "Liver" "QmAbC...456" "WAITING" "HOSP-CA" "patient" now ].

Definition seedDonors : list Donor.t :=
  [ Donor.mk "DON-101" "" "" "" "O-" "A2, A24, B35, B44, DR1, DR4"
      (Some ["Kidney"; "Liver"]) "QmDon...999" "0x123...signed" "" ""
      "donor" now;
    Donor.mk "DON-102" "" "" "" "AB+" "A1, A2, B8, B44, DR3, DR4"
      (Some ["Heart"]) "QmDon...888" "0x456...signed" "" "" "donor" now ].

Definition seedHospitals : list Hospital.t :=
  [ Hospital.mk "HOSP-APOLLO" "Apollo Hospital"
      "15da1cc6ebf7b7b13225c0d6d89e8cab4d40d4672c226618f1e74e5515685f2c"
      "Mumbai" "hospital" now true;
    Hospital.mk "HOSP-AIIMS" "AIIMS Delhi"
      "7810c7831b4fcefb7fb887bde3ef976b9d442d39216b155c84f1f67b38f49229"
      "New Delhi" "hospital" now true;
    Hospital.mk "HOSP-FORTIS" "Fortis Hospital"
      "72cceae42f682d82c0dc46bcd62c2cf85a95422b3d35eda8ef3e6c7d219e7af6"
      "Bangalore" "hospital" now true ].

(** [for _, x := range xs { PutState(x.ID, Marshal(x)) }] *)
Definition putAll {A} (key : A → string) (marshal : A → jobj)
    (xs : list A) (st : WorldState) : WorldState :=
  foldl (λ s x, PutState (key x) (marshal x) s) st xs.

Definition InitLedger (st : WorldState) : result WorldState :=
  Ok (putAll Donor.ID Donor.marshal seedDonors
        (putAll Patient.ID Patient.marshal seedPatients st)).

Definition InitHospitals (st : WorldState) : result WorldState :=
  Ok (putAll Hospital.ID Hospital.marshal seedHospitals st).

(** *** Hospitals *)

Definition GetHospital (st : WorldState) (id : string) : result Hospital.t :=
  match GetState st id with
  | None => Err ("hospital " +:+ id +:+ " does not exist")
  | Some hospitalJSON =>
      if Hospital.fits hospitalJSON
      then Ok (Hospital.unmarshal hospitalJSON)
      else Err jsonError
  end.

(** [json.Marshal(map[string]string{"id": .., "name": .., "location": ..})]:
    Go writes the keys of a map in sorted order.  The function returns the
    text of this object. *)
Definition hospitalInfo (hospital : Hospital.t) : jobj :=
  [ ("id", JStr (Hospital.ID hospital));
    ("location", JStr (Hospital.Location hospital));
    ("name", JStr (Hospital.Name hospital)) ].

Definition AuthenticateHospital (st : WorldState) (id passwordHash : string)
  : result jobj :=
  match GetHospital st id with
  | Err _ => Err "authentication failed: hospital not found"
  | Ok hospital =>
      if negb (Hospital.IsActive hospital)
      then Err "authentication failed: hospital is not active"
      else if negb (String.eqb (Hospital.PasswordHash hospital) passwordHash)
      then Err "authentication failed: invalid credentials"
      else Ok (hospitalInfo hospital)
  end.

(** The loop shared by the [GetAll...] functions: decode every entry of the
    range, stop at the first that does not decode. *)
Fixpoint decodeAll {A} (fits : jobj → bool) (decode : jobj → A)
    (entries : list (string * jobj)) : result (list A) :=
  match entries with
  | [] => Ok []
  | (_, value) :: rest =>
      if fits value
      then match decodeAll fits decode rest with
           | Ok xs => Ok (decode value :: xs)
           | Err e => Err e
           end
      else Err jsonError
  end.

Definition GetAllHospitals (st : WorldState) : result (list Hospital.t) :=
  decodeAll Hospital.fits Hospital.unmarshal
    (GetStateByRange st "HOSP-" "HOSP-~").

(** *** Bulk clear *)

Definition deleteAll (entries : list (string * jobj)) (st : WorldState)
  : WorldState :=
  foldl (λ s kv, DelState kv.1 s) st entries.

(** The three range scans read the committed state [st]. *)
Definition ClearLedger (st : WorldState) : result WorldState :=
  Ok (deleteAll (GetStateByRange st "MATCH-" "MATCH-~")
        (deleteAll (GetStateByRange st "DON-" "DON-~")
           (deleteAll (GetStateByRange st "PAT-" "PAT-~") st))).

(** *** Patients and donors *)

(** The read of the world state cannot fail here, so only the boolean of
    [RecordExists] is kept. *)
Definition RecordExists (st : WorldState) (id : string) : bool :=
  match GetState st id with Some _ => true | None => false end.

Definition CreatePatient (st : WorldState)
    (id nameHash bloodType hla organNeeded ipfsHash hospitalId : string)
  : result WorldState :=
  if RecordExists st id then Err ("patient " +:+ id +:+ " already exists")
  else
    let patient :=
      Patient.mk id nameHash bloodType hla organNeeded ipfsHash "WAITING"
        hospitalId "patient" now in
    Ok (PutState id (Patient.marshal patient) st).

(** [json.Unmarshal([]byte(organsAvailableJSON), &organsAvailable)] with
    [organsAvailable] a [[]string].  The argument is taken already parsed:
    [None] stands for a text that is not JSON.  [null] leaves the slice
    [nil]; an array is decoded element by element, a [null] element staying
    the empty string, and one element of another type makes the call fail. *)
Definition unmarshalOrgans (organsAvailableJSON : option jval)
  : result (option (list string)) :=
  match organsAvailableJSON with
  | Some JNull => Ok None
  | Some (JArr elems) =>
      if forallb fitsElem elems then Ok (Some (elemString <$> elems))
      else Err jsonError
  | _ => Err jsonError
  end.

Definition CreateDonor (st : WorldState)
    (id name email phone bloodType hla : string)
    (organsAvailableJSON : option jval) (ipfsHash consentHash : string)
  : result WorldState :=
  if RecordExists st id then Err ("donor " +:+ id +:+ " already exists")
  else
    match unmarshalOrgans organsAvailableJSON with
    | Err e => Err ("failed to parse organs: " +:+ e)
    | Ok organsAvailable =>
        let donor :=
          Donor.mk id name email phone bloodType hla organsAvailable
            ipfsHash consentHash "PENDING_VERIFICATION" "" "donor" now in
        Ok (PutState id (Donor.marshal donor) st)
    end.

Definition GetPatient (st : WorldState) (id : string) : result Patient.t :=
  match GetState st id with
  | None => Err ("patient " +:+ id +:+ " does not exist")
  | Some patientJSON =>
      if Patient.fits patientJSON
      then Ok (Patient.unmarshal patientJSON)
      else Err jsonError
  end.

Definition GetDonor (st : WorldState) (id : string) : result Donor.t :=
  match GetState st id with
  | None => Err ("donor " +:+ id +:+ " does not exist")
  | Some donorJSON =>
      if Donor.fits donorJSON
      then Ok (Donor.ensureOrgans (Donor.unmarshal donorJSON))
      else Err jsonError
  end.

Definition VerifyDonor (st : WorldState) (donorId hospitalId status : string)
  : result WorldState :=
  match GetDonor st donorId with
  | Err e => Err e
  | Ok donor =>
      if negb (String.eqb status "VERIFIED")
         && negb (String.eqb status "REJECTED")
      then Err "invalid status: must be VERIFIED or REJECTED"
      else
        Ok (PutState donorId
              (Donor.marshal (Donor.setVerification status hospitalId donor))
              st)
  end.

(** [updatedOrgans] collects, in order, the organs other than
    [organToRemove]; it starts as the empty slice, never [nil]. *)
Definition removeOrgan (organToRemove : string) (organs : list string)
  : list string :=
  filter (λ organ, organ ≠ organToRemove) organs.

Definition UpdateDonorStatus (st : WorldState) (id organToRemove : string)
  : result WorldState :=
  match GetDonor st id with
  | Err e => Err e
  | Ok donor =>
      let updatedOrgans := removeOrgan organToRemove (Donor.organs donor) in
      Ok (PutState id
            (Donor.marshal
               (Donor.setOrgansAvailable (Some updatedOrgans) donor))
            st)
  end.

Definition GetAllPatients (st : WorldState) : result (list Patient.t) :=
  decodeAll Patient.fits Patient.unmarshal
    (GetStateByRange st "PAT-" "PAT-~").

Definition GetAllDonors (st : WorldState) : result (list Donor.t) :=
  decodeAll Donor.fits (λ o, Donor.ensureOrgans (Donor.unmarshal o))
    (GetStateByRange st "DON-" "DON-~").

(** *** Matches *)

(** The patient is read and rewritten when a record is stored under
    [patientId]; the result of [json.Unmarshal] is not looked at, so the
    record is decoded as far as it goes.  The match is then written under
    [id].  Nothing else is read. *)
Definition CreateMatch (st : WorldState)
    (id patientId donorId organType hlaScore approvedBy : string)
  : result WorldState :=
  let match_ :=
    Match.mk id patientId donorId organType hlaScore "PENDING" "match" now
      approvedBy in
  let st1 :=
    match GetState st patientId with
    | Some patientJSON =>
        let patient := Patient.unmarshal patientJSON in
        PutState patientId
          (Patient.marshal (Patient.setStatus "MATCHED" patient)) st
    | None => st
    end in
  Ok (PutState id (Match.marshal match_) st1).

Definition UpdatePatientStatus (st : WorldState) (id status : string)
  : result WorldState :=
  match GetPatient st id with
  | Err e => Err e
  | Ok patient =>
      Ok (PutState id (Patient.marshal (Patient.setStatus status patient)) st)
  end.

Definition GetAllMatches (st : WorldState) : result (list Match.t) :=
  decodeAll Match.fits Match.unmarshal
    (GetStateByRange st "MATCH-" "MATCH-~").

(** *** Submitted transactions *)

Inductive tx : Type :=
  | TxInitLedger
  | TxInitHospitals
  | TxClearLedger
  | TxCreatePatient
      (id nameHash bloodType hla organNeeded ipfsHash hospitalId : string)
  | TxCreateDonor (id name email phone bloodType hla : string)
      (organsAvailableJSON : option jval) (ipfsHash consentHash : string)
  | TxVerifyDonor (donorId hospitalId status : string)
  | TxUpdateDonorStatus (id organToRemove : string)
  | TxCreateMatch (id patientId donorId organType hlaScore approvedBy : string)
  | TxUpdatePatientStatus (id status : string).

Definition invoke (st : WorldState) (t : tx) : result WorldState :=
  match t with
  | TxInitLedger => InitLedger st
  | TxInitHospitals => InitHospitals st
  | TxClearLedger => ClearLedger st
  | TxCreatePatient id nameHash bloodType hla organNeeded ipfsHash hospitalId =>
      CreatePatient st id nameHash bloodType hla organNeeded ipfsHash hospitalId
  | TxCreateDonor id name email phone bloodType hla organs ipfsHash consentHash =>
      CreateDonor st id name email phone bloodType hla organs ipfsHash
        consentHash
  | TxVerifyDonor donorId hospitalId status =>
      VerifyDonor st donorId hospitalId status
  | TxUpdateDonorStatus id organToRemove => UpdateDonorStatus st id organToRemove
  | TxCreateMatch id patientId donorId organType hlaScore approvedBy =>
      CreateMatch st id patientId donorId organType hlaScore approvedBy
  | TxUpdatePatientStatus id status => UpdatePatientStatus st id status
  end.

(** A transaction that fails is not committed. *)
Definition submit (st : WorldState) (t : tx) : WorldState :=
  match invoke st t with Ok st' => st' | Err _ => st end.

End Chaincode.

(** A sequence of submitted transactions, each with its time stamp. *)
Definition run (trace : list (string * tx)) (st : WorldState) : WorldState :=
  foldl (λ s nt, submit nt.1 s nt.2) st trace.

(** ** The backend: [GET /api/hospitals] *)

(** The gateway hands the backend the JSON text of what the chaincode
    function returned; [parseChainResult] parses it (and reads [null], the
    empty Go slice, as the empty array). *)
Definition chainResult {A} (marshal : A → jobj) (r : result (list A))
  : result (list jobj) :=
  match r with Ok xs => Ok (map marshal xs) | Err e => Err e end.

(** [{ id: h.id, name: h.name, location: h.location, isActive: h.isActive }]:
    a member that [h] lacks is [undefined], which [res.json] leaves out. *)
Definition pick (keys : list string) (h : jobj) : jobj :=
  omap (λ k, match member k h with Some v => Some (k, v) | None => None end) keys.

Definition safeHospital (h : jobj) : jobj :=
  pick ["id"; "name"; "location"; "isActive"] h.

Definition api_hospitals (st : WorldState) : result (list jobj) :=
  match chainResult Hospital.marshal (GetAllHospitals st) with
  | Ok hospitals => Ok (map safeHospital hospitals)
  | Err e => Err e
  end.

(** ** The hospital portal: blood compatibility and matching *)

Inductive ABORh : Type := Oneg | Opos | Aneg | Apos | Bneg | Bpos | ABneg | ABpos.

Definition bloodTypeName (t : ABORh) : string :=
  match t with
  | Oneg => "O-" | Opos => "O+" | Aneg => "A-" | Apos => "A+"
  | Bneg => "B-" | Bpos => "B+" | ABneg => "AB-" | ABpos => "AB+"
  end.

Definition allBloodTypes : list ABORh :=
  [Oneg; Opos; Aneg; Apos; Bneg; Bpos; ABneg; ABpos].

(** [Array.prototype.includes] on an array of strings. *)
Definition includes (l : list string) (x : string) : bool :=
  existsb (String.eqb x) l.

Definition compatibilityChart : list (string * list string) :=
  [ ("O-", ["O-"]);
    ("O+", ["O+"; "O-"]);
    ("A-", ["A-"; "O-"]);
    ("A+", ["A+"; "A-"; "O+"; "O-"]);
    ("B-", ["B-"; "O-"]);
    ("B+", ["B+"; "B-"; "O+"; "O-"]);
    ("AB-", ["AB-"; "A-"; "B-"; "O-"]);
    ("AB+", ["AB+"; "AB-"; "A+"; "A-"; "B+"; "B-"; "O+"; "O-"]) ].

Fixpoint chartRow (recipientType : string) (chart : list (string * list string))
  : option (list string) :=
  match chart with
  | [] => None
  | (k, row) :: chart' =>
      if String.eqb recipientType k then Some row else chartRow recipientType chart'
  end.

(** [map[recipientType]?.includes(donorType) || false], over the chart's own
    keys (the names [Object.prototype] lends every object are no blood
    types and are not modelled). *)
Definition canReceiveFrom (recipientType donorType : string) : bool :=
  match chartRow recipientType compatibilityChart with
  | Some row => includes row donorType
  | None => false
  end.

(** [s.split(',')]: never empty; the empty string has the one piece [""]. *)
Fixpoint split (s : string) : list string :=
  match s with
  | EmptyString => [""]
  | String c s' =>
      if Ascii.eqb c ","%char then "" :: split s'
      else match split s' with
           | piece :: pieces => String c piece :: pieces
           | [] => [String c ""]
           end
  end.

(** [s.trim()], strings being byte strings: the white space and line
    terminators of ASCII. *)
Definition isWhiteSpace (c : ascii) : bool :=
  existsb (Ascii.eqb c) [" "; "009"; "010"; "011"; "012"; "013"]%char.

Fixpoint trimStart (s : string) : string :=
  match s with
  | EmptyString => ""
  | String c s' => if isWhiteSpace c then trimStart s' else s
  end.

Fixpoint trimEnd (s : string) : string :=
  match s with
  | EmptyString => ""
  | String c s' =>
      match trimEnd s' with
      | EmptyString => if isWhiteSpace c then "" else String c ""
      | t => String c t
      end
  end.

Definition trim (s : string) : string := trimEnd (trimStart s).

(** [(x.hla || '').split(',').map(s => s.trim())]; [hla] is a string in every
    record the chaincode returns, and [''] is its own default. *)
Definition hlaTokens (hla : string) : list string := map trim (split hla).

(** [x.toFixed(fractionDigits)] for [|x| < 10^21]: the nearest multiple of
    [10^-fractionDigits], the larger in magnitude on a tie. *)
Definition padStart (width : nat) (s : string) : string :=
  String.concat "" (replicate (width - String.length s) "0") +:+ s.

Definition toFixed (x : Q) (fractionDigits : nat) : string :=
  let scale := (10 ^ Z.of_nat fractionDigits)%Z in
  let n := Qfloor (Qabs x * inject_Z scale + (1 # 2)) in
  let digits :=
    pretty (n `div` scale)%Z +:+
    match fractionDigits with
    | O => ""
    | _ => "." +:+ padStart fractionDigits (pretty (n `mod` scale)%Z)
    end in
  if Qlt_le_dec x 0 then "-" +:+ digits else digits.

(** One entry of [results]. *)
Record Candidate : Type := mkCandidate {
  donorId : string;
  bloodType : string;
  score : string;
  hlaScore : string;
  daysWaiting : Z;
  common : nat;
  compatible : bool;
  reason : string
}.

Section Matching.

(** [new Date()] and [new Date(createdAt)], in milliseconds. *)
Variable Date_now : Z.
Variable Date_parse : string → Z.

Variable patient : Patient.t.
Variable donor : Donor.t.

Definition isVerified : bool :=
  String.eqb (Donor.VerificationStatus donor) "VERIFIED".

Definition isBloodCompatible : bool :=
  canReceiveFrom (Patient.BloodType patient) (Donor.BloodType donor).

Definition isExactBloodMatch : bool :=
  String.eqb (Patient.BloodType patient) (Donor.BloodType donor).

(** [(donor.organsAvailable || []).includes(patient.organNeeded)] *)
Definition isOrganCompatible : bool :=
  includes (Donor.organs donor) (Patient.OrganNeeded patient).

Definition patientHla : list string := hlaTokens (Patient.HLA patient).
Definition donorHla : list string := hlaTokens (Donor.HLA donor).

Definition commonAntigens : list string :=
  List.filter (λ antigen, includes donorHla antigen) patientHla.

Definition hlaRawScore : Q :=
  (inject_Z (Z.of_nat (length commonAntigens))
     / inject_Z (Z.max (Z.of_nat (length patientHla)) 1)) * 100.

Definition daysWaitingExact : Q :=
  inject_Z (Date_now - Date_parse (Patient.CreatedAt patient))
    / inject_Z (1000 * 60 * 60 * 24).

Definition waitlistScore : Q := Qmin (daysWaitingExact / 30) 1 * 100.

Definition isCompatible : bool :=
  isBloodCompatible && isOrganCompatible && isVerified.

Definition bonus : Q := if isExactBloodMatch then 10 else 0.

Definition totalScore : Q :=
  if isCompatible
  then hlaRawScore * (6 # 10) + waitlistScore * (3 # 10) + bonus
  else 0.

(** The callback of [donors.map] in [runMatching]. *)
Definition scoreDonor : Candidate :=
  {| donorId := Donor.ID donor;
     bloodType := Donor.BloodType donor;
     score := toFixed totalScore 1;
     hlaScore := toFixed hlaRawScore 0;
     daysWaiting := Qfloor daysWaitingExact;
     common := length commonAntigens;
     compatible := isCompatible;
     reason :=
       if negb isVerified then "Donor Not Verified"
       else if negb isBloodCompatible then "Blood Mismatch"
       else if negb isOrganCompatible then "Organ Mismatch"
       else "Compatible" |}.

End Matching.

(** [results] of [runMatching(patient)], before it is sorted for display. *)
Definition runMatching (Date_now : Z) (Date_parse : string → Z)
    (donors : list Donor.t) (patient : Patient.t) : list Candidate :=
  map (scoreDonor Date_now Date_parse patient) donors.

(** ** Reading donors back *)

(** The organs [GetDonor] reports for a key, if it reports a donor. *)
Definition organsAt (st : WorldState) (id : string) : option (list string) :=
  match GetDonor st id with
  | Ok donor => Some (Donor.organs donor)
  | Err _ => None
  end.

Definition readDonor (o : jobj) : Donor.t := Donor.ensureOrgans (Donor.unmarshal o).

(** One list of organs succeeds another when nothing was added: it is a
    sublist of it, order and multiplicity included. *)
Definition shrinks (before after : option (list string)) : Prop :=
  match before, after with
  | Some l, Some l' => l' `sublist_of` l
  | _, _ => True
  end.

(** ** Sample ledgers and records *)

Definition t0 : string := "2026-01-01T00:00:00Z".

(** The ledger after [InitLedger]: PAT-001, PAT-002, DON-101 and DON-102,
    the donors with an empty verification status. *)
Definition seededLedger : WorldState := submit t0 ∅ TxInitLedger.

(** The ledger after [InitHospitals]. *)
Definition hospitalLedger : WorldState := submit t0 ∅ TxInitHospitals.

(** A donor registered with the same organ twice. *)
Definition twiceKidney : tx :=
  TxCreateDonor "DON-7" "Ann" "ann@example.org" "555" "O-" "A2, B35"
    (Some (JStrs ["Kidney"; "Kidney"])) "QmAnn" "0xann".

(** A donor stored with a [null] organ list. *)
Definition nullOrgans : tx :=
  TxCreateDonor "DON-8" "Bob" "bob@example.org" "556" "A+" "A1"
    (Some JNull) "QmBob" "0xbob".

(** DON-101 verified and its kidney allocated to PAT-001. *)
Definition firstMatch : tx :=
  TxCreateMatch "MATCH-1" "PAT-001" "DON-101" "Kidney" "90.0" "HOSP-APOLLO".

Definition allocatedLedger : WorldState :=
  foldl (submit t0) seededLedger
    [ TxVerifyDonor "DON-101" "HOSP-APOLLO" "VERIFIED";
      firstMatch;
      TxUpdateDonorStatus "DON-101" "Kidney" ].

(** A patient and a donor registered with empty [hla] fields. *)
Definition noHlaPatient : Patient.t :=
  Patient.mk "PAT-9" "c0ffee" "A+" "" "Kidney" "QmP9" "WAITING" "HOSP-APOLLO"
    "patient" t0.

Definition noHlaDonor : Donor.t :=
  Donor.mk "DON-9" "Cy" "cy@example.org" "557" "A+" "" (Some ["Kidney"])
    "QmD9" "0xcy" "VERIFIED" "HOSP-APOLLO" "donor" t0.

(** The scenario of the seed data: PAT-001 has waited 30 days, DON-101 is
    verified. *)
Definition seedPatient : Patient.t :=
  Patient.mk "PAT-001" "8f4343..." "A+" "A2, A24, B35, B44, DR1, DR4" "Kidney"
    "QmXyZ...123" "WAITING" "HOSP-NY" "patient" t0.

Definition seedDonor (verificationStatus verifiedBy : string) : Donor.t :=
  Donor.mk "DON-101" "" "" "" "O-" "A2, A24, B35, B44, DR1, DR4"
    (Some ["Kidney"; "Liver"]) "QmDon...999" "0x123...signed"
    verificationStatus verifiedBy "donor" t0.

Definition thirtyDays : Z := 30 * (1000 * 60 * 60 * 24).

(** A ledger with one hospital that has been closed. *)
Definition closedHospital : Hospital.t :=
  Hospital.mk "HOSP-OLD" "Old Clinic" "abc123" "Pune" "hospital" t0 false.

Definition closedHospitalLedger : WorldState :=
  PutState "HOSP-OLD" (Hospital.marshal closedHospital) ∅.

Definition apolloHash : string :=
  "15da1cc6ebf7b7b13225c0d6d89e8cab4d40d4672c226618f1e74e5515685f2c".

(** A second match submitted under the identifier of the first. *)
Definition secondMatch : tx :=
  TxCreateMatch "MATCH-1" "PAT-002" "DON-102" "Heart" "40.0" "HOSP-AIIMS".

(** The record [CreateMatch] stores. *)
Definition newMatch (now id patientId donorId organType hlaScore approvedBy : string)
  : Match.t :=
  Match.mk id patientId donorId organType hlaScore "PENDING" "match" now
    approvedBy.

(** What [CreateMatch] makes of the record stored under [patientId]. *)
Definition markMatched (patientJSON : jobj) : jobj :=
  Patient.marshal (Patient.setStatus "MATCHED" (Patient.unmarshal patientJSON)).

(** The stored [organsAvailable] member is [null] or missing. *)
Definition organsNullOrMissing (o : jobj) : Prop :=
  member "organsAvailable" o = None ∨ member "organsAvailable" o = Some JNull.

(** A key that [ClearLedger] deletes: one of its three ranges holds it. *)
Definition clearedKey (k : string) : bool :=
  (String.leb "PAT-" k && String.ltb k "PAT-~")
  || (String.leb "DON-" k && String.ltb k "DON-~")
  || (String.leb "MATCH-" k && String.ltb k "MATCH-~").

(** The records [CreatePatient] and [CreateDonor] store. *)
Definition newPatient
    (now id nameHash bloodType hla organNeeded ipfsHash hospitalId : string)
  : Patient.t :=
  Patient.mk id nameHash bloodType hla organNeeded ipfsHash "WAITING"
    hospitalId "patient" now.

Definition newDonor (now id name email phone bloodType hla : string)
    (organsAvailable : option (list string)) (ipfsHash consentHash : string)
  : Donor.t :=
  Donor.mk id name email phone bloodType hla organsAvailable ipfsHash
    consentHash "PENDING_VERIFICATION" "" "donor" now.

(** ** What a ledger built by the contract holds *)

Definition docTypeOk (docType : string) : Prop :=
  docType = "patient" ∨ docType = "donor" ∨ docType = "match"
  ∨ docType = "hospital".

Definition verificationOk (status verifiedBy : string) : Prop :=
  ((status = "" ∨ status = "PENDING_VERIFICATION") ∧ verifiedBy = "")
  ∨ status = "VERIFIED" ∨ status = "REJECTED".

(** The documents the contract can leave under a key: the marshalled form of
    one of its structs carrying the key as its id.  A patient or donor
    document may stem from a record of another type that [CreateMatch],
    [UpdatePatientStatus], [VerifyDonor] or [UpdateDonorStatus] rewrote. *)
Inductive storedRecord (key : string) : jobj → Prop :=
  | stored_patient (p : Patient.t) :
      Patient.ID p = key → docTypeOk (Patient.DocType p) →
      storedRecord key (Patient.marshal p)
  | stored_donor (d : Donor.t) :
      Donor.ID d = key → docTypeOk (Donor.DocType d) →
      verificationOk (Donor.VerificationStatus d) (Donor.VerifiedBy d) →
      storedRecord key (Donor.marshal d)
  | stored_match (m : Match.t) :
      Match.ID m = key → Match.DocType m = "match" →
      storedRecord key (Match.marshal m)
  | stored_hospital (now : string) (h : Hospital.t) :
      h ∈ seedHospitals now → Hospital.ID h = key →
      storedRecord key (Hospital.marshal h).

Definition ledgerOk (st : WorldState) : Prop :=
  ∀ k o, st !! k = Some o → storedRecord k o.

(** The ledgers the transactions can produce from the empty one. *)
Definition reachable (st : WorldState) : Prop := ∃ trace, st = run trace ∅.

(** A listing is in key order: its ids are distinct, ascending in byte
    order, and within the range scanned. *)
Definition listedIds (prefix : string) (ids : list string) : Prop :=
  NoDup ids
  ∧ StronglySorted (λ a b, String.leb a b = true) ids
  ∧ Forall (λ id, String.leb prefix id = true
                  ∧ String.ltb id (prefix +:+ "~") = true) ids.

(** ** The portal: further definitions *)

(** The Rh sign of a blood type is its last character. *)
Definition rhNegative (bloodType : string) : bool :=
  String.eqb (substring (String.length bloodType - 1) 1 bloodType) "-".

(** The character occurs in the string. *)
Definition hasChar (c : ascii) (s : string) : Prop := c ∈ list_ascii_of_string s.

(** [1000 * 60 * 60 * 24] and [new Date() - new Date(patient.createdAt)]. *)
Definition msPerDay : Z := 1000 * 60 * 60 * 24.

Definition waitedMs (Date_now : Z) (Date_parse : string → Z)
    (patient : Patient.t) : Z :=
  Date_now - Date_parse (Patient.CreatedAt patient).

(** [handleApproveMatch(match)], as the ledger sees it.  The portal posts the
    match under the id [`MATCH-${Date.now()}`] to [/api/matches], which
    submits [CreateMatch]; when that fails it stops.  Otherwise it patches
    [/api/donors/:id/status], which submits [UpdateDonorStatus], and does not
    look at the answer.  [hospitalId || 'HOSP-DEFAULT'] replaces the empty
    string. *)
Definition handleApproveMatch (now : string) (Date_now : Z) (hospitalId : string)
    (selectedPatient : Patient.t) (match_ : Candidate) (st : WorldState)
  : WorldState :=
  let matchId := "MATCH-" +:+ pretty Date_now in
  match CreateMatch now st matchId (Patient.ID selectedPatient)
          (donorId match_) (Patient.OrganNeeded selectedPatient)
          (score match_)
          (if String.eqb hospitalId "" then "HOSP-DEFAULT" else hospitalId) with
  | Err _ => st
  | Ok st1 =>
      submit now st1
        (TxUpdateDonorStatus (donorId match_)
           (Patient.OrganNeeded selectedPatient))
  end.

(** [POST /api/auth/login].  [hospitalId] and [passwordHash] are the members
    of the request body, absent or strings.  The answers are 400
    ("Hospital ID and password are required"), 200 with the profile
    [AuthenticateHospital] returned, and 401 ("Invalid credentials") for every
    error of the chaincode. *)
Inductive LoginResponse : Type :=
  | Login200 (hospital : jobj)
  | Login400
  | Login401.

(** [!field] is false. *)
Definition truthy (field : option string) : bool :=
  match field with
  | Some s => negb (String.eqb s "")
  | None => false
  end.

Definition api_auth_login (st : WorldState) (hospitalId passwordHash : option string)
  : LoginResponse :=
  if negb (truthy hospitalId) || negb (truthy passwordHash) then Login400
  else
    match AuthenticateHospital st (default "" hospitalId)
            (default "" passwordHash) with
    | Ok hospitalInfo => Login200 hospitalInfo
    | Err _ => Login401
    end.

(** *** The earlier version of the portal

    [runMatching] as the earlier [App] has it: no verification test, no
    guard on [organsAvailable] ([None] is the TypeError of [null.includes]),
    the HLA score over six loci and capped at 100. *)
Record CandidateV1 : Type := mkCandidateV1 {
  donorIdV1 : string;
  bloodTypeV1 : string;
  scoreV1 : string;
  commonV1 : nat;
  compatibleV1 : bool;
  reasonV1 : string
}.

Definition hlaScoreV1 (patient : Patient.t) (donor : Donor.t) : Q :=
  inject_Z (Z.of_nat (length (commonAntigens patient donor))) / 6 * 100.

Definition scoreDonorV1 (patient : Patient.t) (donor : Donor.t)
  : option CandidateV1 :=
  match Donor.OrgansAvailable donor with
  | None => None
  | Some organsAvailable =>
      let isBloodCompatible :=
        canReceiveFrom (Patient.BloodType patient) (Donor.BloodType donor) in
      let isOrganCompatible :=
        includes organsAvailable (Patient.OrganNeeded patient) in
      Some {| donorIdV1 := Donor.ID donor;
              bloodTypeV1 := Donor.BloodType donor;
              scoreV1 := toFixed (Qmin (hlaScoreV1 patient donor) 100) 1;
              commonV1 := length (commonAntigens patient donor);
              compatibleV1 := isBloodCompatible && isOrganCompatible;
              reasonV1 :=
                if negb isBloodCompatible then "Blood Mismatch"
                else if negb isOrganCompatible then "Organ Mismatch"
                else "Compatible" |}
  end.

(** ** More sample data *)

(** The seeded ledger with DON-101 verified by Apollo. *)
Definition verifiedLedger : WorldState :=
  submit t0 seededLedger (TxVerifyDonor "DON-101" "HOSP-APOLLO" "VERIFIED").

(** The candidate the portal shows for PAT-001 and the verified DON-101. *)
Definition seedCandidate : Candidate :=
  scoreDonor thirtyDays (λ _, 0%Z) seedPatient (seedDonor "VERIFIED" "HOSP-APOLLO").

Definition approvalTime : Z := 1767225600000.

(** * Properties *)

(** ** Codecs: what [json.Unmarshal] reads back from [json.Marshal] *)

Lemma Patient_unmarshal_marshal (p : Patient.t) :
  Patient.unmarshal (Patient.marshal p) = p ∧ Patient.fits (Patient.marshal p) = true.
Proof. by destruct p. Qed.

(** An array of strings decodes, without error, to the strings. *)
Lemma elemString_JStr (l : list string) : elemString <$> (JStr <$> l) = l.
Proof. induction l as [|s l IH]; [done|]. by rewrite !fmap_cons, IH. Qed.

Lemma fitsElem_JStr (l : list string) : forallb fitsElem (JStr <$> l) = true.
Proof. by induction l. Qed.

Lemma unmarshalOrgans_JStrs (l : list string) :
  unmarshalOrgans (Some (JStrs l)) = Ok (Some l).
Proof. simpl. by rewrite fitsElem_JStr, elemString_JStr. Qed.

(** An array of strings and [null]s decodes, without error, to the strings,
    with the empty string for each [null]. *)
Lemma decode_elems (elems : list jval) (organs : list string) :
  Forall2 (λ v s, v = JStr s ∨ (v = JNull ∧ s = "")) elems organs →
  forallb fitsElem elems = true ∧ elemString <$> elems = organs.
Proof.
  induction 1 as [|v s elems organs Hv _ [IH1 IH2]]; [done|].
  rewrite fmap_cons, IH2. simpl. rewrite IH1.
  by destruct Hv as [-> | [-> ->]].
Qed.

Lemma Donor_unmarshal_marshal (d : Donor.t) :
  Donor.unmarshal (Donor.marshal d) = d ∧ Donor.fits (Donor.marshal d) = true.
Proof.
  destruct d as [? ? ? ? ? ? [organs|] ? ? ? ? ? ?]; [|by split].
  unfold Donor.unmarshal, Donor.fits, getStrings, fitsStrings. simpl.
  by rewrite elemString_JStr, fitsElem_JStr.
Qed.

Lemma Hospital_unmarshal_marshal (h : Hospital.t) :
  Hospital.unmarshal (Hospital.marshal h) = h
  ∧ Hospital.fits (Hospital.marshal h) = true.
Proof. by destruct h. Qed.

(** A patient, match or hospital document read as a donor has no organs. *)
Lemma Donor_of_Patient (p : Patient.t) :
  Donor.fits (Patient.marshal p) = true
  ∧ Donor.OrgansAvailable (Donor.unmarshal (Patient.marshal p)) = None.
Proof. by destruct p. Qed.

Lemma Donor_of_Match (m : Match.t) :
  Donor.fits (Match.marshal m) = true
  ∧ Donor.OrgansAvailable (Donor.unmarshal (Match.marshal m)) = None.
Proof. by destruct m. Qed.

Lemma Donor_of_Hospital (h : Hospital.t) :
  Donor.fits (Hospital.marshal h) = true
  ∧ Donor.OrgansAvailable (Donor.unmarshal (Hospital.marshal h)) = None.
Proof. by destruct h. Qed.

Lemma ensureOrgans_organs (d : Donor.t) :
  Donor.OrgansAvailable (Donor.ensureOrgans d) = Some (Donor.organs d).
Proof. by destruct d as [? ? ? ? ? ? [organs|] ? ? ? ? ? ?]. Qed.

Lemma ensureOrgans_Some (d : Donor.t) (l : list string) :
  Donor.OrgansAvailable d = Some l → Donor.ensureOrgans d = d.
Proof. unfold Donor.ensureOrgans. by intros ->. Qed.

Lemma setOrgansAvailable_same (d : Donor.t) (l : list string) :
  Donor.OrgansAvailable d = Some l → Donor.setOrgansAvailable (Some l) d = d.
Proof. destruct d; simpl. by intros ->. Qed.

(** ** The portal *)

Lemma chart_keys : map bloodTypeName allBloodTypes = compatibilityChart.*1.
Proof. reflexivity. Qed.

(** C8.  In the compatibility chart an O- donor suits every recipient type,
    an AB+ recipient can receive from every donor type, and every type can
    receive from itself. *)
Theorem canReceiveFrom_universal (t : ABORh) :
  canReceiveFrom (bloodTypeName t) "O-" = true
  ∧ canReceiveFrom "AB+" (bloodTypeName t) = true
  ∧ canReceiveFrom (bloodTypeName t) (bloodTypeName t) = true.
Proof. destruct t; repeat split; reflexivity. Qed.

Section MatchingFacts.

Variable Date_now : Z.
Variable Date_parse : string → Z.
Variable patient : Patient.t.
Variable donor : Donor.t.

Lemma isVerified_spec :
  isVerified donor = true ↔ Donor.VerificationStatus donor = "VERIFIED".
Proof. unfold isVerified. apply String.eqb_eq. Qed.

Lemma commonAntigens_length :
  (length (commonAntigens patient donor) ≤ length (patientHla patient))%nat.
Proof. unfold commonAntigens. apply List.filter_length_le. Qed.

Lemma patientHla_nonempty : (1 ≤ length (patientHla patient))%nat.
Proof.
  unfold patientHla, hlaTokens. rewrite length_map.
  generalize (Patient.HLA patient). intros s.
  induction s as [|c s IH]; simpl; [lia|].
  destruct (Ascii.eqb c ","); simpl; [lia|].
  destruct (split s); simpl in *; lia.
Qed.

(** The HLA component lies between 0 and 100. *)
Lemma hlaRawScore_range :
  (0 <= hlaRawScore patient donor <= 100)%Q.
Proof.
  unfold hlaRawScore.
  pose proof commonAntigens_length as Hle.
  set (c := Z.of_nat (length (commonAntigens patient donor))) in *.
  set (m := Z.max (Z.of_nat (length (patientHla patient))) 1).
  assert (Hc : (0 <= c)%Z) by (unfold c; lia).
  assert (Hm : (1 <= m)%Z) by (unfold m; lia).
  assert (Hcm : (c <= m)%Z) by (unfold c, m; lia).
  assert (Hm' : (0 < inject_Z m)%Q) by (rewrite <- (Zlt_Qlt 0); lia).
  assert (H0 : (0 <= inject_Z c / inject_Z m)%Q).
  { apply Qle_shift_div_l; [done|]. rewrite Qmult_0_l, <- (Zle_Qle 0). done. }
  assert (H1 : (inject_Z c / inject_Z m <= 1)%Q).
  { apply Qle_shift_div_r; [done|]. rewrite Qmult_1_l, <- Zle_Qle. done. }
  split; lra.
Qed.

Lemma waitlistScore_le : (waitlistScore Date_now Date_parse patient <= 100)%Q.
Proof.
  unfold waitlistScore.
  pose proof (Q.le_min_r (daysWaitingExact Date_now Date_parse patient / 30) 1).
  lra.
Qed.

(** C3.  A donor whose verification status is not VERIFIED is never
    eligible, whatever the HLA, blood and organ data; and for every
    ineligible pair the total score is 0, shown as "0.0". *)
Theorem unverified_donor_ineligible :
  (Donor.VerificationStatus donor ≠ "VERIFIED" →
     compatible (scoreDonor Date_now Date_parse patient donor) = false)
  ∧ (compatible (scoreDonor Date_now Date_parse patient donor) = false →
       totalScore Date_now Date_parse patient donor = 0%Q
       ∧ score (scoreDonor Date_now Date_parse patient donor) = "0.0").
Proof.
  split.
  - intros Hv. simpl. unfold isCompatible.
    destruct (isVerified donor) eqn:E.
    + by apply isVerified_spec in E.
    + by rewrite andb_false_r.
  - simpl. unfold totalScore. by intros ->.
Qed.

(** C7.  For an eligible pair the total is
    [hlaRawScore * 0.6 + waitlistScore * 0.3 + bonus], the waitlist
    component being [min(daysWaiting / 30, 1) * 100] and the bonus 10 when
    the two blood types are the same string and 0 otherwise; the total
    never exceeds 100. *)
Theorem totalScore_weighted :
  (isCompatible patient donor = true →
     totalScore Date_now Date_parse patient donor
     = (hlaRawScore patient donor * (6 # 10)
        + (Qmin (daysWaitingExact Date_now Date_parse patient / 30) 1 * 100)
          * (3 # 10)
        + (if String.eqb (Patient.BloodType patient) (Donor.BloodType donor)
           then 10 else 0))%Q)
  ∧ ((0 <= hlaRawScore patient donor <= 100)%Q →
     (0 <= waitlistScore Date_now Date_parse patient <= 100)%Q →
     (totalScore Date_now Date_parse patient donor <= 100)%Q)
  ∧ (totalScore Date_now Date_parse patient donor <= 100)%Q.
Proof.
  assert (Hb : (0 <= bonus patient donor <= 10)%Q).
  { unfold bonus. destruct (isExactBloodMatch patient donor); split; lra. }
  assert (Hgen : ∀ h w : Q, (h <= 100)%Q → (w <= 100)%Q →
            ((if isCompatible patient donor
              then h * (6 # 10) + w * (3 # 10) + bonus patient donor
              else 0) <= 100)%Q).
  { intros h w Hh Hw. destruct (isCompatible patient donor); lra. }
  split; [|split].
  - unfold totalScore. by intros ->.
  - intros [_ Hh] [_ Hw]. by apply Hgen.
  - apply Hgen; [apply hlaRawScore_range | apply waitlistScore_le].
Qed.

End MatchingFacts.

(** ** The record store *)

Lemma deleteAll_lookup (entries : list (string * jobj)) (st : WorldState)
    (k : string) :
  deleteAll entries st !! k = None ∨ deleteAll entries st !! k = st !! k.
Proof.
  unfold deleteAll. revert st.
  induction entries as [|[k' v] entries IH]; intros st; simpl; [by right|].
  destruct (IH (DelState k' st)) as [H|H]; [by left|].
  rewrite H. unfold DelState. rewrite lookup_delete. case_decide; auto.
Qed.

Lemma elem_of_GetStateByRange (st : WorldState) (startKey endKey k : string)
    (v : jobj) :
  (k, v) ∈ GetStateByRange st startKey endKey
  ↔ st !! k = Some v
    ∧ String.leb startKey k = true ∧ String.ltb k endKey = true.
Proof.
  unfold GetStateByRange. rewrite merge_sort_Permutation.
  rewrite list_elem_of_filter, elem_of_map_to_list. unfold inRange. simpl.
  tauto.
Qed.

Lemma decodeAll_Ok {A} (fits : jobj → bool) (decode : jobj → A)
    (entries : list (string * jobj)) (xs : list A) :
  decodeAll fits decode entries = Ok xs
  ↔ Forall (λ kv, fits kv.2 = true) entries ∧ xs = map (λ kv, decode kv.2) entries.
Proof.
  revert xs. induction entries as [|[k v] entries IH]; intros xs; simpl.
  - split; [intros [= <-]; by split | by intros [_ ->]].
  - destruct (fits v) eqn:Hv.
    + destruct (decodeAll fits decode entries) as [ys|e] eqn:Hd.
      * destruct (IH ys) as [[Hf ->] _]; [done|].
        split; [intros [= <-]; split; [by constructor | done]
               | by intros [_ ->]].
      * split; [done|]. intros [Hf ->]. apply Forall_cons in Hf as [_ Hf].
        destruct (IH (map (λ kv, decode kv.2) entries)) as [_ Habs].
        by specialize (Habs (conj Hf eq_refl)).
    + split; [done|]. intros [Hf _]. apply Forall_cons in Hf as [Hf _].
      simpl in Hf. congruence.
Qed.

(** ** Donors as the chaincode reads them *)

Lemma readDonor_organs (o : jobj) :
  Donor.OrgansAvailable (readDonor o)
  = Some (default [] (getStrings o "organsAvailable")).
Proof. unfold readDonor. by rewrite ensureOrgans_organs. Qed.

Lemma GetDonor_lookup (st : WorldState) (id : string) (d : Donor.t) :
  GetDonor st id = Ok d
  ↔ ∃ o, st !! id = Some o ∧ Donor.fits o = true ∧ d = readDonor o.
Proof.
  unfold GetDonor, GetState, readDonor. destruct (st !! id) as [o|].
  - destruct (Donor.fits o) eqn:Hf.
    + split; [intros [= <-]; eauto | by intros (? & [= <-] & _ & ->)].
    + split; [done | intros (? & [= <-] & ? & _); congruence].
  - split; [done | by intros (? & ? & _)].
Qed.

Lemma GetDonor_organs_Some (st : WorldState) (id : string) (d : Donor.t) :
  GetDonor st id = Ok d → Donor.OrgansAvailable d = Some (Donor.organs d).
Proof.
  intros (o & _ & _ & ->)%GetDonor_lookup. unfold readDonor.
  rewrite ensureOrgans_organs. unfold Donor.organs at 2.
  by rewrite ensureOrgans_organs.
Qed.

Lemma GetDonor_PutState_marshal (st : WorldState) (id : string) (d : Donor.t) :
  GetDonor (PutState id (Donor.marshal d) st) id = Ok (Donor.ensureOrgans d).
Proof.
  unfold GetDonor, GetState, PutState. rewrite lookup_insert_eq.
  destruct (Donor_unmarshal_marshal d) as [-> ->]. done.
Qed.

Lemma organsAt_PutState (st : WorldState) (k id : string) (o : jobj) :
  organsAt (PutState k o st) id
  = if decide (k = id)
    then if Donor.fits o then Some (Donor.organs (readDonor o)) else None
    else organsAt st id.
Proof.
  unfold organsAt, GetDonor, GetState, PutState. rewrite lookup_insert.
  case_decide; [|done]. by destruct (Donor.fits o).
Qed.

Lemma organs_readDonor_marshal (d : Donor.t) :
  Donor.organs (readDonor (Donor.marshal d)) = Donor.organs d.
Proof.
  unfold readDonor. destruct (Donor_unmarshal_marshal d) as [-> _].
  unfold Donor.organs at 1. by rewrite ensureOrgans_organs.
Qed.

Lemma shrinks_refl (a : option (list string)) : shrinks a a.
Proof. destruct a; simpl; [reflexivity | done]. Qed.

Lemma shrinks_to_nil (a : option (list string)) : shrinks a (Some []).
Proof. destruct a; simpl; [apply sublist_nil_l | done]. Qed.

#[local] Hint Resolve shrinks_refl shrinks_to_nil : core.

(** Writing a patient, match or hospital document under a key makes
    [GetDonor] report no organs there. *)
Lemma organsAt_PutState_Patient (st : WorldState) (k id : string) (p : Patient.t) :
  organsAt (PutState k (Patient.marshal p) st) id
  = if decide (k = id) then Some [] else organsAt st id.
Proof.
  rewrite organsAt_PutState. case_decide; [|done].
  destruct (Donor_of_Patient p) as [-> Hn]. unfold readDonor, Donor.organs.
  by rewrite ensureOrgans_organs; unfold Donor.organs; rewrite Hn.
Qed.

Lemma organsAt_PutState_Match (st : WorldState) (k id : string) (m : Match.t) :
  organsAt (PutState k (Match.marshal m) st) id
  = if decide (k = id) then Some [] else organsAt st id.
Proof.
  rewrite organsAt_PutState. case_decide; [|done].
  destruct (Donor_of_Match m) as [-> Hn]. unfold readDonor, Donor.organs.
  by rewrite ensureOrgans_organs; unfold Donor.organs; rewrite Hn.
Qed.

Lemma organsAt_PutState_Hospital (st : WorldState) (k id : string) (h : Hospital.t) :
  organsAt (PutState k (Hospital.marshal h) st) id
  = if decide (k = id) then Some [] else organsAt st id.
Proof.
  rewrite organsAt_PutState. case_decide; [|done].
  destruct (Donor_of_Hospital h) as [-> Hn]. unfold readDonor, Donor.organs.
  by rewrite ensureOrgans_organs; unfold Donor.organs; rewrite Hn.
Qed.

Lemma organsAt_PutState_Donor (st : WorldState) (k id : string) (d : Donor.t) :
  organsAt (PutState k (Donor.marshal d) st) id
  = if decide (k = id) then Some (Donor.organs d) else organsAt st id.
Proof.
  rewrite organsAt_PutState. case_decide; [|done].
  destruct (Donor_unmarshal_marshal d) as [_ ->].
  by rewrite organs_readDonor_marshal.
Qed.

Lemma organsAt_absent (st : WorldState) (id : string) :
  st !! id = None → organsAt st id = None.
Proof. unfold organsAt, GetDonor, GetState. by intros ->. Qed.

Lemma organsAt_same_lookup (st st' : WorldState) (id : string) :
  st' !! id = st !! id → organsAt st' id = organsAt st id.
Proof. unfold organsAt, GetDonor, GetState. by intros ->. Qed.

Lemma organsAt_deleteAll (entries : list (string * jobj)) (st : WorldState)
    (id : string) :
  organsAt (deleteAll entries st) id = None
  ∨ organsAt (deleteAll entries st) id = organsAt st id.
Proof.
  destruct (deleteAll_lookup entries st id) as [H|H];
    [left; by apply organsAt_absent | right; by apply organsAt_same_lookup].
Qed.

Lemma shrinks_deleteAll (entries : list (string * jobj)) (st : WorldState)
    (id : string) (before : option (list string)) :
  shrinks before (organsAt st id) →
  shrinks before (organsAt (deleteAll entries st) id).
Proof.
  destruct (organsAt_deleteAll entries st id) as [-> | ->]; [|done].
  by destruct before.
Qed.

Lemma RecordExists_false (st : WorldState) (id : string) :
  RecordExists st id = false → st !! id = None.
Proof. unfold RecordExists, GetState. by destruct (st !! id). Qed.

Lemma organsAt_GetDonor (st : WorldState) (id : string) (d : Donor.t) :
  GetDonor st id = Ok d → organsAt st id = Some (Donor.organs d).
Proof. unfold organsAt. by intros ->. Qed.

(** Every transaction but the seeding leaves, under every key, a donor with
    a sublist of the organs it had. *)
Lemma submit_shrinks (now : string) (st : WorldState) (t : tx) (id : string) :
  t ≠ TxInitLedger → shrinks (organsAt st id) (organsAt (submit now st t) id).
Proof.
  intros Hseed. unfold submit.
  destruct t as [| | |pid ? ? ? ? ? ?|did ? ? ? ? ? organs ? ?|did hid status
                |did organ|mid pid ? ? ? ?|pid status]; simpl.
  - done.
  - unfold putAll, seedHospitals. cbn [foldl].
    rewrite !organsAt_PutState_Hospital. repeat case_decide; auto.
  - by do 3 apply shrinks_deleteAll.
  - unfold CreatePatient. destruct (RecordExists st pid) eqn:E; [done|].
    rewrite organsAt_PutState_Patient. case_decide; auto.
  - unfold CreateDonor. destruct (RecordExists st did) eqn:E; [done|].
    destruct (unmarshalOrgans organs); [|done].
    rewrite organsAt_PutState_Donor. case_decide as Hk; [|done].
    subst. by rewrite (organsAt_absent st id (RecordExists_false _ _ E)).
  - unfold VerifyDonor. destruct (GetDonor st did) as [d|] eqn:E; [|done].
    destruct (negb _ && negb _); [done|].
    rewrite organsAt_PutState_Donor. case_decide as Hk; [|done].
    subst. by rewrite (organsAt_GetDonor _ _ _ E).
  - unfold UpdateDonorStatus. destruct (GetDonor st did) as [d|] eqn:E; [|done].
    rewrite organsAt_PutState_Donor. case_decide as Hk; [|done].
    subst. rewrite (organsAt_GetDonor _ _ _ E). simpl.
    unfold Donor.organs at 1. simpl. apply sublist_filter.
  - unfold CreateMatch. cbn zeta. rewrite organsAt_PutState_Match.
    case_decide; [done|]. destruct (GetState st pid); [|done].
    rewrite organsAt_PutState_Patient. case_decide; auto.
  - unfold UpdatePatientStatus. destruct (GetPatient st pid); [|done].
    rewrite organsAt_PutState_Patient. case_decide; auto.
Qed.

(** C5, amended.  [CreateDonor] stores the organ list it is given as it
    is, so a donor can hold an organ twice; but no transaction other than the
    seeding ever adds an organ to a stored donor: a donor read before and
    after it has, after, a sublist of its organs, and no duplicate it did not
    have. *)
Theorem organsAvailable_only_shrinks (now : string) (st : WorldState) :
  (∀ id name email phone bloodType hla organs ipfsHash consentHash,
     st !! id = None →
     ∃ st' d,
       CreateDonor now st id name email phone bloodType hla
         (Some (JStrs organs)) ipfsHash consentHash = Ok st'
       ∧ GetDonor st' id = Ok d ∧ Donor.organs d = organs)
  ∧ (∀ t id d d',
       t ≠ TxInitLedger →
       GetDonor st id = Ok d →
       GetDonor (submit now st t) id = Ok d' →
       Donor.organs d' `sublist_of` Donor.organs d
       ∧ (∀ organ, organ ∈ Donor.organs d' → organ ∈ Donor.organs d)
       ∧ (NoDup (Donor.organs d) → NoDup (Donor.organs d'))).
Proof.
  split.
  - intros id name email phone bloodType hla organs ipfsHash consentHash Hfree.
    unfold CreateDonor, RecordExists, GetState.
    rewrite Hfree, unmarshalOrgans_JStrs.
    do 2 eexists. split; [reflexivity|].
    split; [apply GetDonor_PutState_marshal | reflexivity].
  - intros t id d d' Hseed Hd Hd'.
    pose proof (submit_shrinks now st t id Hseed) as H.
    rewrite (organsAt_GetDonor _ _ _ Hd), (organsAt_GetDonor _ _ _ Hd') in H.
    simpl in H. split; [done|]. split.
    + intros organ Hin. by eapply elem_of_sublist.
    + intros Hnd. by eapply sublist_NoDup.
Qed.

(** ** Removing an organ *)

Lemma removeOrgan_idempotent (organ : string) (l : list string) :
  removeOrgan organ (removeOrgan organ l) = removeOrgan organ l.
Proof.
  unfold removeOrgan. induction l as [|x l IH]; [done|].
  rewrite filter_cons. case_decide; [|done].
  by rewrite filter_cons_True, IH.
Qed.

Lemma removeOrgan_absent (organ : string) (l : list string) :
  organ ∉ l → removeOrgan organ l = l.
Proof.
  unfold removeOrgan. induction l as [|x l IH]; [done|].
  intros [Hx Hl]%not_elem_of_cons.
  rewrite filter_cons_True by done. by rewrite IH.
Qed.

Lemma removeOrgan_gone (organ : string) (l : list string) :
  organ ∉ removeOrgan organ l.
Proof. unfold removeOrgan. rewrite list_elem_of_filter. tauto. Qed.

Lemma UpdateDonorStatus_Ok (st : WorldState) (id organ : string) (d : Donor.t) :
  GetDonor st id = Ok d →
  UpdateDonorStatus st id organ
  = Ok (PutState id
          (Donor.marshal
             (Donor.setOrgansAvailable
                (Some (removeOrgan organ (Donor.organs d))) d)) st).
Proof. unfold UpdateDonorStatus. by intros ->. Qed.

(** C9.  For a stored donor, [UpdateDonorStatus(id, organ)] succeeds and
    rewrites the record with every occurrence of [organ] filtered out of
    [organsAvailable] and every other field as it was, touching no other key;
    submitting it a second time changes nothing more; and when [organ] is not
    in the list the donor reads back as before. *)
Theorem UpdateDonorStatus_idempotent (st : WorldState) (id organ : string)
    (d : Donor.t) :
  GetDonor st id = Ok d →
  ∃ st1,
    UpdateDonorStatus st id organ = Ok st1
    ∧ GetDonor st1 id
      = Ok (Donor.setOrgansAvailable
              (Some (filter (λ o, o ≠ organ) (Donor.organs d))) d)
    ∧ (∀ k, k ≠ id → st1 !! k = st !! k)
    ∧ UpdateDonorStatus st1 id organ = Ok st1
    ∧ (organ ∉ Donor.organs d → GetDonor st1 id = Ok d).
Proof.
  intros Hd. eexists. split; [by apply UpdateDonorStatus_Ok|].
  set (d1 := Donor.setOrgansAvailable _ d).
  assert (H1 : GetDonor (PutState id (Donor.marshal d1) st) id = Ok d1)
    by apply GetDonor_PutState_marshal.
  split; [done|]. split; [|split].
  - intros k Hk. unfold PutState. by rewrite lookup_insert_ne.
  - rewrite (UpdateDonorStatus_Ok _ _ _ _ H1). f_equal.
    unfold PutState. rewrite insert_insert_eq. do 2 f_equal.
    unfold d1, Donor.organs; simpl. fold (Donor.organs d).
    by rewrite removeOrgan_idempotent.
  - intros Hnot. rewrite H1. f_equal. unfold d1.
    fold (removeOrgan organ (Donor.organs d)).
    rewrite removeOrgan_absent by done.
    apply setOrgansAvailable_same. by eapply GetDonor_organs_Some.
Qed.

Lemma UpdateDonorStatus_idempotent_witness :
  ∃ d st1,
    GetDonor seededLedger "DON-101" = Ok d
    ∧ Donor.organs d = ["Kidney"; "Liver"]
    ∧ UpdateDonorStatus seededLedger "DON-101" "Kidney" = Ok st1
    ∧ organsAt st1 "DON-101" = Some ["Liver"]
    ∧ UpdateDonorStatus st1 "DON-101" "Kidney" = Ok st1.
Proof.
  eexists.
  assert (Hd : GetDonor seededLedger "DON-101"
               = Ok (seedDonor "" "")) by (vm_compute; reflexivity).
  destruct (UpdateDonorStatus_idempotent seededLedger "DON-101" "Kidney" _ Hd)
    as (st1 & Hu & Hg & _ & Hu' & _).
  exists st1. repeat split; try done.
  unfold organsAt. rewrite Hg. reflexivity.
Defined.

(** ** Reading donors *)

Lemma organsNullOrMissing_getStrings (o : jobj) :
  organsNullOrMissing o → getStrings o "organsAvailable" = None.
Proof. unfold getStrings. by intros [-> | ->]. Qed.

Lemma GetAllDonors_Ok (st : WorldState) (ds : list Donor.t) :
  GetAllDonors st = Ok ds
  ↔ Forall (λ kv, Donor.fits kv.2 = true) (GetStateByRange st "DON-" "DON-~")
    ∧ ds = map (λ kv, readDonor kv.2) (GetStateByRange st "DON-" "DON-~").
Proof. unfold GetAllDonors. apply decodeAll_Ok. Qed.

(** C10.  Every stored record that decodes as a donor is returned by
    [GetDonor], and by [GetAllDonors] when all the records of the range
    decode, with an organ list that is not [nil]; a record whose
    [organsAvailable] member is [null] or missing is returned with the empty
    list, which is marshalled as [[]]. *)
Theorem donor_reads_never_nil (st : WorldState) :
  (∀ id o, st !! id = Some o → Donor.fits o = true →
     ∃ l, GetDonor st id = Ok (Donor.setOrgansAvailable (Some l) (Donor.unmarshal o))
          ∧ (organsNullOrMissing o → l = []))
  ∧ (∀ id d, GetDonor st id = Ok d →
       ∃ l, Donor.OrgansAvailable d = Some l
            ∧ member "organsAvailable" (Donor.marshal d) = Some (JStrs l))
  ∧ (Forall (λ kv, Donor.fits kv.2 = true) (GetStateByRange st "DON-" "DON-~") →
       ∃ ds, GetAllDonors st = Ok ds
             ∧ Forall2 (λ kv d, ∃ l,
                 d = Donor.setOrgansAvailable (Some l) (Donor.unmarshal kv.2)
                 ∧ (organsNullOrMissing kv.2 → l = []))
                 (GetStateByRange st "DON-" "DON-~") ds)
  ∧ (∀ ds, GetAllDonors st = Ok ds →
       Forall (λ d, ∃ l, Donor.OrgansAvailable d = Some l
                         ∧ member "organsAvailable" (Donor.marshal d)
                           = Some (JStrs l)) ds).
Proof.
  assert (Hread : ∀ o, ∃ l,
            readDonor o = Donor.setOrgansAvailable (Some l) (Donor.unmarshal o)
            ∧ (organsNullOrMissing o → l = [])).
  { intros o. unfold readDonor, Donor.ensureOrgans.
    destruct (Donor.OrgansAvailable (Donor.unmarshal o)) as [l|] eqn:E.
    - exists l. split; [symmetry; by apply setOrgansAvailable_same|].
      intros Hn%organsNullOrMissing_getStrings. simpl in E. congruence.
    - by exists []. }
  assert (Hlist : ∀ o, ∃ l, Donor.OrgansAvailable (readDonor o) = Some l
            ∧ member "organsAvailable" (Donor.marshal (readDonor o))
              = Some (JStrs l)).
  { intros o. eexists. split; [apply readDonor_organs|].
    simpl. by rewrite readDonor_organs. }
  split; [|split; [|split]].
  - intros id o Ho Hf. destruct (Hread o) as (l & Hl & Hnull).
    exists l. split; [|done]. rewrite <- Hl. apply GetDonor_lookup. eauto.
  - intros id d (o & _ & _ & ->)%GetDonor_lookup. apply Hlist.
  - intros Hf. eexists. split; [by apply GetAllDonors_Ok|].
    apply Forall2_fmap_r, Forall_Forall2_diag, Forall_forall.
    intros kv _. apply Hread.
  - intros ds [_ ->]%GetAllDonors_Ok. apply Forall_fmap, Forall_forall.
    intros kv _. apply Hlist.
Qed.

Lemma donor_reads_never_nil_witness :
  let st := submit t0 ∅ nullOrgans in
  ∃ o d,
    st !! "DON-8" = Some o
    ∧ member "organsAvailable" o = Some JNull
    ∧ GetDonor st "DON-8" = Ok d
    ∧ Donor.OrgansAvailable d = Some []
    ∧ GetAllDonors st = Ok [d].
Proof.
  intros st.
  destruct (donor_reads_never_nil st) as (Hget & _ & Hall & _).
  assert (Ho : ∃ o, st !! "DON-8" = Some o ∧ Donor.fits o = true
                    ∧ member "organsAvailable" o = Some JNull)
    by (eexists; repeat split; vm_compute; reflexivity).
  destruct Ho as (o & Ho & Hf & Hnull).
  destruct (Hget "DON-8" o Ho Hf) as (l & Hd & Hl).
  rewrite (Hl (or_intror Hnull)) in Hd.
  exists o, (Donor.setOrgansAvailable (Some []) (Donor.unmarshal o)).
  repeat split; try done.
  destruct Hall as (ds & Hds & _); [by vm_compute; repeat constructor|].
  rewrite Hds. apply GetAllDonors_Ok in Hds as [_ ->].
  assert (Hr : GetStateByRange st "DON-" "DON-~" = [("DON-8", o)]).
  { assert (Ho' : st !! "DON-8" = Some o) by done.
    vm_compute in Ho'. injection Ho' as <-. vm_compute. reflexivity. }
  rewrite Hr. simpl. do 2 f_equal.
  unfold readDonor, Donor.ensureOrgans. simpl.
  unfold getStrings at 1. by rewrite Hnull.
Defined.

(** ** Hospitals *)

(** C4, counterexample.  After [InitHospitals] the chaincode's bulk listing
    returns the three hospitals with their password hashes, and the JSON it
    hands to the gateway carries a [passwordHash] member for each. *)
Lemma GetAllHospitals_returns_password_hashes :
  ∃ hospitals docs,
    GetAllHospitals hospitalLedger = Ok hospitals
    ∧ map Hospital.ID hospitals = ["HOSP-AIIMS"; "HOSP-APOLLO"; "HOSP-FORTIS"]
    ∧ map Hospital.PasswordHash hospitals
      = [ "7810c7831b4fcefb7fb887bde3ef976b9d442d39216b155c84f1f67b38f49229";
          "15da1cc6ebf7b7b13225c0d6d89e8cab4d40d4672c226618f1e74e5515685f2c";
          "72cceae42f682d82c0dc46bcd62c2cf85a95422b3d35eda8ef3e6c7d219e7af6" ]
    ∧ chainResult Hospital.marshal (GetAllHospitals hospitalLedger) = Ok docs
    ∧ map (member "passwordHash") docs
      = [ Some (JStr "7810c7831b4fcefb7fb887bde3ef976b9d442d39216b155c84f1f67b38f49229");
          Some (JStr "15da1cc6ebf7b7b13225c0d6d89e8cab4d40d4672c226618f1e74e5515685f2c");
          Some (JStr "72cceae42f682d82c0dc46bcd62c2cf85a95422b3d35eda8ef3e6c7d219e7af6") ].
Proof. do 2 eexists. repeat split; vm_compute; reflexivity. Qed.

Lemma safeHospital_marshal (h : Hospital.t) :
  safeHospital (Hospital.marshal h)
  = [ ("id", JStr (Hospital.ID h)); ("name", JStr (Hospital.Name h));
      ("location", JStr (Hospital.Location h));
      ("isActive", JBool (Hospital.IsActive h)) ].
Proof. reflexivity. Qed.

(** C4, amended.  [AuthenticateHospital] fails with an "authentication
    failed" error when the hospital cannot be read, when it is inactive
    (whatever the hash supplied) and when the stored hash is not the supplied
    one; otherwise it returns the object with exactly the members id,
    location and name of the hospital.  The chaincode's bulk listing returns
    whole records, [passwordHash] included; it is the backend's
    [/api/hospitals] that sends only id, name, location and isActive of
    each. *)
Theorem AuthenticateHospital_profile (st : WorldState) (id passwordHash : string) :
  (∀ e, GetHospital st id = Err e →
     AuthenticateHospital st id passwordHash
     = Err "authentication failed: hospital not found")
  ∧ (∀ h, GetHospital st id = Ok h → Hospital.IsActive h = false →
       AuthenticateHospital st id passwordHash
       = Err "authentication failed: hospital is not active")
  ∧ (∀ h, GetHospital st id = Ok h → Hospital.IsActive h = true →
       Hospital.PasswordHash h ≠ passwordHash →
       AuthenticateHospital st id passwordHash
       = Err "authentication failed: invalid credentials")
  ∧ (∀ h, GetHospital st id = Ok h → Hospital.IsActive h = true →
       Hospital.PasswordHash h = passwordHash →
       AuthenticateHospital st id passwordHash
       = Ok [ ("id", JStr (Hospital.ID h));
              ("location", JStr (Hospital.Location h));
              ("name", JStr (Hospital.Name h)) ])
  ∧ (∀ info, AuthenticateHospital st id passwordHash = Ok info →
       info.*1 = ["id"; "location"; "name"]
       ∧ member "passwordHash" info = None
       ∧ ∃ h, GetHospital st id = Ok h ∧ Hospital.IsActive h = true
              ∧ Hospital.PasswordHash h = passwordHash)
  ∧ (∀ hospitals, GetAllHospitals st = Ok hospitals →
       ∃ docs, chainResult Hospital.marshal (GetAllHospitals st) = Ok docs
               ∧ map (member "passwordHash") docs
                 = map (λ h, Some (JStr (Hospital.PasswordHash h))) hospitals)
  ∧ (∀ listing, api_hospitals st = Ok listing →
       Forall (λ entry, entry.*1 = ["id"; "name"; "location"; "isActive"]
                        ∧ member "passwordHash" entry = None) listing).
Proof.
  unfold AuthenticateHospital.
  split; [|split; [|split; [|split; [|split; [|split]]]]].
  - by intros e ->.
  - by intros h -> ->.
  - intros h -> -> Hne. simpl.
    by apply String.eqb_neq in Hne as ->.
  - intros h -> -> <-. simpl. by rewrite String.eqb_refl.
  - intros info. destruct (GetHospital st id) as [h|]; [|done].
    destruct (Hospital.IsActive h) eqn:Ha; [|done]. simpl.
    destruct (String.eqb _ _) eqn:Hp; [|done].
    intros [= <-]. repeat split. exists h. by apply String.eqb_eq in Hp.
  - intros hospitals ->. eexists. split; [reflexivity|].
    by rewrite <- list_fmap_compose.
  - intros listing. unfold api_hospitals, chainResult.
    destruct (GetAllHospitals st) as [hs|]; [|done].
    intros [= <-]. rewrite <- list_fmap_compose.
    apply Forall_fmap, Forall_forall. by intros h _.
Qed.

Lemma AuthenticateHospital_profile_witness :
  AuthenticateHospital hospitalLedger "HOSP-APOLLO" apolloHash
  = Ok [ ("id", JStr "HOSP-APOLLO"); ("location", JStr "Mumbai");
         ("name", JStr "Apollo Hospital") ]
  ∧ AuthenticateHospital hospitalLedger "HOSP-APOLLO" "abc123"
    = Err "authentication failed: invalid credentials"
  ∧ AuthenticateHospital hospitalLedger "HOSP-NONE" apolloHash
    = Err "authentication failed: hospital not found"
  ∧ AuthenticateHospital closedHospitalLedger "HOSP-OLD" "abc123"
    = Err "authentication failed: hospital is not active".
Proof.
  assert (Ha : GetHospital hospitalLedger "HOSP-APOLLO"
               = Ok (Hospital.mk "HOSP-APOLLO" "Apollo Hospital" apolloHash
                       "Mumbai" "hospital" t0 true))
    by (vm_compute; reflexivity).
  assert (Hc : GetHospital closedHospitalLedger "HOSP-OLD" = Ok closedHospital)
    by (vm_compute; reflexivity).
  split; [|split; [|split]].
  - destruct (AuthenticateHospital_profile hospitalLedger "HOSP-APOLLO" apolloHash)
      as (_ & _ & _ & Hok & _).
    apply (Hok _ Ha); reflexivity.
  - destruct (AuthenticateHospital_profile hospitalLedger "HOSP-APOLLO" "abc123")
      as (_ & _ & Hbad & _).
    apply (Hbad _ Ha); [reflexivity | discriminate].
  - destruct (AuthenticateHospital_profile hospitalLedger "HOSP-NONE" apolloHash)
      as (Hnone & _).
    apply (Hnone "hospital HOSP-NONE does not exist"). vm_compute. reflexivity.
  - destruct (AuthenticateHospital_profile closedHospitalLedger "HOSP-OLD" "abc123")
      as (_ & Hclosed & _).
    apply (Hclosed _ Hc). reflexivity.
Defined.

(** ** Matches *)

(** C1, counterexample.  On the empty ledger neither the patient nor the
    donor can be fetched, and on the seeded ledger donor DON-101 is not
    verified; in both [CreateMatch] succeeds and writes: the match is stored,
    and the seeded patient is set to MATCHED. *)
Lemma CreateMatch_checks_nothing :
  (GetPatient ∅ "PAT-404" = Err "patient PAT-404 does not exist"
   ∧ GetDonor ∅ "DON-404" = Err "donor DON-404 does not exist"
   ∧ ∃ st',
       CreateMatch t0 ∅ "MATCH-1" "PAT-404" "DON-404" "Kidney" "90.0" "HOSP-APOLLO"
       = Ok st'
       ∧ GetAllMatches st'
         = Ok [ newMatch t0 "MATCH-1" "PAT-404" "DON-404" "Kidney" "90.0"
                  "HOSP-APOLLO" ])
  ∧ (∃ p d st' p',
       GetPatient seededLedger "PAT-001" = Ok p ∧ Patient.Status p = "WAITING"
       ∧ GetDonor seededLedger "DON-101" = Ok d
       ∧ Donor.VerificationStatus d = ""
       ∧ CreateMatch t0 seededLedger "MATCH-1" "PAT-001" "DON-101" "Kidney"
           "90.0" "HOSP-APOLLO" = Ok st'
       ∧ GetPatient st' "PAT-001" = Ok p' ∧ Patient.Status p' = "MATCHED"
       ∧ GetAllMatches st'
         = Ok [ newMatch t0 "MATCH-1" "PAT-001" "DON-101" "Kidney" "90.0"
                  "HOSP-APOLLO" ]).
Proof.
  split.
  - split; [reflexivity|]. split; [reflexivity|].
    eexists. split; vm_compute; reflexivity.
  - do 4 eexists. repeat split; vm_compute; reflexivity.
Qed.

(** C1, amended.  [CreateMatch] checks no eligibility: on every ledger
    that holds nothing under [id], and for all other arguments, it succeeds,
    stores the match under [id], rewrites the record under [patientId], if
    there is one, as a patient with status MATCHED, and leaves every other
    key, the donor's among them, as it was. *)
Theorem CreateMatch_unconditional (now : string) (st : WorldState)
    (id patientId donorId organType hlaScore approvedBy : string) :
  st !! id = None →
  ∃ st',
    CreateMatch now st id patientId donorId organType hlaScore approvedBy = Ok st'
    ∧ st' !! id
      = Some (Match.marshal
                (newMatch now id patientId donorId organType hlaScore approvedBy))
    ∧ (patientId ≠ id → st' !! patientId = markMatched <$> st !! patientId)
    ∧ (∀ k, k ≠ id → k ≠ patientId → st' !! k = st !! k).
Proof.
  intros _. unfold CreateMatch, PutState, GetState. cbn zeta. eexists.
  split; [reflexivity|]. split; [by rewrite lookup_insert_eq|]. split.
  - intros Hne. rewrite lookup_insert_ne by done.
    destruct (st !! patientId) as [o|] eqn:E; simpl; [|done].
    by rewrite lookup_insert_eq.
  - intros k Hk Hp. rewrite lookup_insert_ne by done.
    destruct (st !! patientId); [|done]. by rewrite lookup_insert_ne.
Qed.

Lemma CreateMatch_unconditional_witness :
  seededLedger !! "MATCH-1" = None
  ∧ ∃ st',
      CreateMatch t0 seededLedger "MATCH-1" "PAT-001" "DON-101" "Kidney" "90.0"
        "HOSP-APOLLO" = Ok st'
      ∧ st' !! "MATCH-1"
        = Some (Match.marshal
                  (newMatch t0 "MATCH-1" "PAT-001" "DON-101" "Kidney" "90.0"
                     "HOSP-APOLLO"))
      ∧ st' !! "PAT-001" = markMatched <$> seededLedger !! "PAT-001"
      ∧ st' !! "DON-101" = seededLedger !! "DON-101".
Proof.
  assert (Hfree : seededLedger !! "MATCH-1" = None) by (vm_compute; reflexivity).
  split; [exact Hfree|].
  destruct (CreateMatch_unconditional t0 seededLedger "MATCH-1" "PAT-001"
              "DON-101" "Kidney" "90.0" "HOSP-APOLLO" Hfree)
    as (st' & Hc & Hm & Hp & Hk).
  exists st'. split; [exact Hc|]. split; [exact Hm|].
  split; [apply Hp; discriminate | apply Hk; discriminate].
Defined.

(** C2.  [CreateMatch] has no existence check: submitted under the
    identifier of a stored match it succeeds and replaces the record, while
    [CreatePatient] and [CreateDonor] refuse an identifier that is taken. *)
Theorem CreateMatch_overwrites_existing_id :
  let st := submit t0 seededLedger firstMatch in
  GetAllMatches st
  = Ok [ newMatch t0 "MATCH-1" "PAT-001" "DON-101" "Kidney" "90.0" "HOSP-APOLLO" ]
  ∧ is_ok (invoke t0 st secondMatch) = true
  ∧ GetAllMatches (submit t0 st secondMatch)
    = Ok [ newMatch t0 "MATCH-1" "PAT-002" "DON-102" "Heart" "40.0" "HOSP-AIIMS" ]
  ∧ CreatePatient t0 st "PAT-001" "c0ffee" "A+" "A1" "Kidney" "QmP" "HOSP-AIIMS"
    = Err "patient PAT-001 already exists"
  ∧ CreateDonor t0 st "DON-101" "Dee" "" "" "A+" "A1" (Some (JStrs ["Heart"]))
      "QmD" "0xdee"
    = Err "donor DON-101 already exists".
Proof. repeat split; vm_compute; reflexivity. Qed.

(** ** Organs *)

(** C5, counterexample.  [CreateDonor] given the same organ twice stores it
    twice. *)
Lemma CreateDonor_keeps_duplicates :
  ∃ d,
    GetDonor (submit t0 ∅ twiceKidney) "DON-7" = Ok d
    ∧ Donor.organs d = ["Kidney"; "Kidney"]
    ∧ ¬ NoDup (Donor.organs d).
Proof.
  eexists. split; [vm_compute; reflexivity|]. split; [reflexivity|].
  simpl. intros Hnd. apply NoDup_cons in Hnd as [Hnot _].
  apply Hnot. constructor.
Qed.

(** Unless the ledger is cleared, a key under which a donor can be read
    stays one. *)
Lemma submit_keeps_donor (now : string) (st : WorldState) (t : tx) (id : string) :
  t ≠ TxClearLedger →
  is_Some (organsAt st id) → is_Some (organsAt (submit now st t) id).
Proof.
  intros Hclear Hsome. unfold submit.
  destruct t as [| | |pid ? ? ? ? ? ?|did ? ? ? ? ? organs ? ?|did hid status
                |did organ|mid pid ? ? ? ?|pid status]; simpl.
  - unfold putAll, seedDonors, seedPatients. cbn [foldl].
    rewrite !organsAt_PutState_Donor, !organsAt_PutState_Patient.
    repeat case_decide; eauto.
  - unfold putAll, seedHospitals. cbn [foldl].
    rewrite !organsAt_PutState_Hospital. repeat case_decide; eauto.
  - done.
  - unfold CreatePatient. destruct (RecordExists st pid); [done|].
    rewrite organsAt_PutState_Patient. case_decide; eauto.
  - unfold CreateDonor. destruct (RecordExists st did); [done|].
    destruct (unmarshalOrgans organs); [|done].
    rewrite organsAt_PutState_Donor. case_decide; eauto.
  - unfold VerifyDonor. destruct (GetDonor st did); [|done].
    destruct (negb _ && negb _); [done|].
    rewrite organsAt_PutState_Donor. case_decide; eauto.
  - unfold UpdateDonorStatus. destruct (GetDonor st did); [|done].
    rewrite organsAt_PutState_Donor. case_decide; eauto.
  - unfold CreateMatch. cbn zeta. rewrite organsAt_PutState_Match.
    case_decide; [eauto|]. destruct (GetState st pid); [|done].
    rewrite organsAt_PutState_Patient. case_decide; eauto.
  - unfold UpdatePatientStatus. destruct (GetPatient st pid); [|done].
    rewrite organsAt_PutState_Patient. case_decide; eauto.
Qed.

(** Along any sequence of transactions that neither seeds nor clears the
    ledger, a stored donor stays readable and its organs only shrink. *)
Lemma run_shrinks (trace : list (string * tx)) (st : WorldState) (id : string)
    (l : list string) :
  Forall (λ nt, nt.2 ≠ TxInitLedger ∧ nt.2 ≠ TxClearLedger) trace →
  organsAt st id = Some l →
  ∃ l', organsAt (run trace st) id = Some l' ∧ l' `sublist_of` l.
Proof.
  unfold run. revert st l.
  induction trace as [|[now t] trace IH]; intros st l Hall Hl; simpl.
  - by exists l.
  - apply Forall_cons in Hall as [[Hseed Hclear] Hall]. simpl in *.
    pose proof (submit_shrinks now st t id Hseed) as Hs.
    destruct (submit_keeps_donor now st t id Hclear) as [l1 Hl1];
      [by rewrite Hl|].
    rewrite Hl, Hl1 in Hs. simpl in Hs.
    destruct (IH _ _ Hall Hl1) as (l' & Hl' & Hsub).
    exists l'. split; [done|]. by etrans.
Qed.

(** Submitting [InitLedger] again gives DON-101 back the kidney that was
    allocated: the seeding overwrites. *)
Lemma InitLedger_restores_organs :
  organsAt allocatedLedger "DON-101" = Some ["Liver"]
  ∧ organsAt (submit t0 allocatedLedger TxInitLedger) "DON-101"
    = Some ["Kidney"; "Liver"].
Proof. split; vm_compute; reflexivity. Qed.

Lemma organsAvailable_only_shrinks_witness :
  ∃ d d',
    GetDonor seededLedger "DON-101" = Ok d
    ∧ GetDonor (submit t0 seededLedger (TxUpdateDonorStatus "DON-101" "Kidney"))
        "DON-101" = Ok d'
    ∧ Donor.organs d = ["Kidney"; "Liver"]
    ∧ Donor.organs d' = ["Liver"]
    ∧ Donor.organs d' `sublist_of` Donor.organs d.
Proof.
  do 2 eexists.
  split; [vm_compute; reflexivity|]. split; [vm_compute; reflexivity|].
  split; [reflexivity|]. split; [reflexivity|].
  destruct (organsAvailable_only_shrinks t0 seededLedger) as [_ Hshrink].
  eapply (Hshrink (TxUpdateDonorStatus "DON-101" "Kidney") "DON-101").
  - discriminate.
  - vm_compute. reflexivity.
  - vm_compute. reflexivity.
Defined.

(** ** Scores *)

(** C6.  A patient and a donor whose [hla] fields are both empty: each
    field splits into the one empty token, the tokens agree, and the HLA
    component is 100, not 0.  The guard [Math.max(patientHla.length, 1)] never
    applies, [split] returning no empty array. *)
Theorem hlaRawScore_of_empty_fields :
  Patient.HLA noHlaPatient = "" ∧ Donor.HLA noHlaDonor = ""
  ∧ patientHla noHlaPatient = [""]
  ∧ donorHla noHlaDonor = [""]
  ∧ commonAntigens noHlaPatient noHlaDonor = [""]
  ∧ (hlaRawScore noHlaPatient noHlaDonor == 100)%Q
  ∧ hlaScore (scoreDonor thirtyDays (λ _, 0%Z) noHlaPatient noHlaDonor) = "100".
Proof. repeat split. Qed.

Lemma unverified_donor_ineligible_witness :
  let c := scoreDonor thirtyDays (λ _, 0%Z) seedPatient
             (seedDonor "PENDING_VERIFICATION" "") in
  compatible c = false ∧ reason c = "Donor Not Verified" ∧ score c = "0.0".
Proof.
  intros c.
  destruct (unverified_donor_ineligible thirtyDays (λ _, 0%Z) seedPatient
              (seedDonor "PENDING_VERIFICATION" "")) as [Hv Hz].
  assert (Hc : compatible c = false) by (apply Hv; discriminate).
  split; [exact Hc|]. split; [reflexivity|]. exact (proj2 (Hz Hc)).
Defined.

Lemma totalScore_weighted_witness :
  let total := totalScore thirtyDays (λ _, 0%Z) seedPatient
                 (seedDonor "VERIFIED" "HOSP-APOLLO") in
  (total == 90)%Q ∧ (total <= 100)%Q.
Proof.
  intros total.
  destruct (totalScore_weighted thirtyDays (λ _, 0%Z) seedPatient
              (seedDonor "VERIFIED" "HOSP-APOLLO")) as (Hsum & Hle & _).
  split.
  - unfold total. rewrite Hsum by reflexivity. vm_compute. reflexivity.
  - apply Hle; split; vm_compute; discriminate.
Defined.


(** * Further properties of the chaincode, the backend and the portal *)

(** ** The byte order of keys *)

Lemma String_ltb_lt (a b : string) :
  String.ltb a b = true ↔ OrderedTypeEx.String_as_OT.lt a b.
Proof.
  unfold String.ltb. rewrite <- OrderedTypeEx.String_as_OT.cmp_lt.
  unfold OrderedTypeEx.String_as_OT.cmp. by destruct (String.compare a b).
Qed.

Lemma String_leb_lt (a b : string) :
  String.leb a b = true ↔ OrderedTypeEx.String_as_OT.lt a b ∨ a = b.
Proof.
  unfold String.leb. rewrite <- OrderedTypeEx.String_as_OT.cmp_lt.
  rewrite <- OrderedTypeEx.String_as_OT.cmp_eq.
  unfold OrderedTypeEx.String_as_OT.cmp.
  destruct (String.compare a b); split; try done; auto; by intros [|].
Qed.

Lemma String_leb_trans (a b c : string) :
  String.leb a b = true → String.leb b c = true → String.leb a c = true.
Proof.
  rewrite !String_leb_lt. intros [Hab| ->] [Hbc| ->]; auto.
  left. by eapply OrderedTypeEx.String_as_OT.lt_trans.
Qed.

Lemma String_leb_ltb_trans (a b c : string) :
  String.leb a b = true → String.ltb b c = true → String.ltb a c = true.
Proof.
  rewrite String_leb_lt, !String_ltb_lt. intros [Hab| ->] Hbc; [|done].
  by eapply OrderedTypeEx.String_as_OT.lt_trans.
Qed.

#[local] Instance keyLe_trans : Transitive keyLe.
Proof. intros x y z. unfold keyLe. apply String_leb_trans. Qed.

#[local] Instance keyLe_total : Total keyLe.
Proof. intros x y. unfold keyLe. apply String.leb_total. Qed.

(** ** Range scans *)

Lemma GetStateByRange_NoDup (st : WorldState) (startKey endKey : string) :
  NoDup (GetStateByRange st startKey endKey).*1.
Proof.
  unfold GetStateByRange. rewrite merge_sort_Permutation.
  eapply sublist_NoDup; [apply (NoDup_fst_map_to_list st)|].
  apply fmap_sublist, sublist_filter.
Qed.

Lemma GetStateByRange_sorted (st : WorldState) (startKey endKey : string) :
  StronglySorted keyLe (GetStateByRange st startKey endKey).
Proof. unfold GetStateByRange. apply StronglySorted_merge_sort; apply _. Qed.

(** A range scan depends on the entries of the range only. *)
Lemma GetStateByRange_ext (st st' : WorldState) (startKey endKey : string) :
  (∀ k, String.leb startKey k = true → String.ltb k endKey = true →
        st' !! k = st !! k) →
  GetStateByRange st' startKey endKey = GetStateByRange st startKey endKey.
Proof.
  intros Hsame.
  apply (Sorted_unique_strong keyLe).
  - intros [k1 v1] [k2 v2] H1 H2 Hle1 Hle2. unfold keyLe in *. simpl in *.
    assert (k1 = k2) as -> by by apply String.leb_antisym.
    apply elem_of_GetStateByRange in H1 as (H1 & Ha & Hb).
    apply elem_of_GetStateByRange in H2 as (H2 & _ & _).
    rewrite (Hsame _ Ha Hb) in H1. congruence.
  - apply StronglySorted_Sorted, GetStateByRange_sorted.
  - apply StronglySorted_Sorted, GetStateByRange_sorted.
  - apply NoDup_Permutation.
    + eapply NoDup_fmap_1, GetStateByRange_NoDup.
    + eapply NoDup_fmap_1, GetStateByRange_NoDup.
    + intros [k v]. rewrite !elem_of_GetStateByRange.
      split; intros (H & Ha & Hb); (split; [|done]).
      * by rewrite <- (Hsame _ Ha Hb).
      * by rewrite (Hsame _ Ha Hb).
Qed.

Lemma GetStateByRange_nil (st : WorldState) (startKey endKey : string) :
  (∀ k, String.leb startKey k = true → String.ltb k endKey = true →
        st !! k = None) →
  GetStateByRange st startKey endKey = [].
Proof.
  intros Hnone. destruct (GetStateByRange st startKey endKey) as [|[k v] l] eqn:E;
    [done|].
  assert (Hin : (k, v) ∈ GetStateByRange st startKey endKey)
    by (rewrite E; constructor).
  apply elem_of_GetStateByRange in Hin as (H & Ha & Hb).
  rewrite (Hnone _ Ha Hb) in H. done.
Qed.

Lemma deleteAll_lookup_elem (entries : list (string * jobj)) (st : WorldState)
    (k : string) :
  deleteAll entries st !! k = if decide (k ∈ entries.*1) then None else st !! k.
Proof.
  unfold deleteAll. revert st.
  induction entries as [|[k' v] entries IH]; intros st.
  - by rewrite decide_False by apply not_elem_of_nil.
  - cbn [foldl]. rewrite IH, fmap_cons. unfold DelState. cbn [fst].
    destruct (decide (k ∈ entries.*1)) as [Hin|Hnin].
    + rewrite decide_True; [done | by right].
    + rewrite lookup_delete. destruct (decide (k' = k)) as [->|Hne].
      * rewrite decide_True; [done | by left].
      * rewrite decide_False; [done|].
        intros [->|?]%elem_of_cons; done.
Qed.

(** ** Registration *)

Lemma GetPatient_PutState_marshal (st : WorldState) (id : string) (p : Patient.t) :
  GetPatient (PutState id (Patient.marshal p) st) id = Ok p.
Proof.
  unfold GetPatient, GetState, PutState. rewrite lookup_insert_eq.
  by destruct (Patient_unmarshal_marshal p) as [-> ->].
Qed.

Lemma PutState_other (st : WorldState) (id k : string) (o : jobj) :
  k ≠ id → PutState id o st !! k = st !! k.
Proof. intros Hk. unfold PutState. by rewrite lookup_insert_ne. Qed.

(** X1.  [CreatePatient] on a free identifier stores a WAITING patient with
    the given fields, which [GetPatient] reads back, and touches no other
    key; on a taken identifier, whatever record holds it, it fails with
    "already exists" and the ledger stays as it was. *)
Theorem CreatePatient_creates_once (now : string) (st : WorldState)
    (id nameHash bloodType hla organNeeded ipfsHash hospitalId : string) :
  (st !! id = None →
     ∃ st',
       CreatePatient now st id nameHash bloodType hla organNeeded ipfsHash
         hospitalId = Ok st'
       ∧ GetPatient st' id
         = Ok (newPatient now id nameHash bloodType hla organNeeded ipfsHash
                 hospitalId)
       ∧ (∀ k, k ≠ id → st' !! k = st !! k))
  ∧ (is_Some (st !! id) →
       CreatePatient now st id nameHash bloodType hla organNeeded ipfsHash
         hospitalId = Err ("patient " +:+ id +:+ " already exists")
       ∧ submit now st
           (TxCreatePatient id nameHash bloodType hla organNeeded ipfsHash
              hospitalId) = st).
Proof.
  unfold submit, invoke, CreatePatient, RecordExists, GetState. split.
  - intros ->. eexists. split; [reflexivity|].
    split; [apply GetPatient_PutState_marshal|].
    intros k Hk. by apply PutState_other.
  - by intros [o ->].
Qed.

Lemma CreatePatient_creates_once_witness :
  (∃ st',
     CreatePatient t0 ∅ "PAT-9" "c0ffee" "A+" "" "Kidney" "QmP9" "HOSP-APOLLO"
     = Ok st'
     ∧ GetPatient st' "PAT-9" = Ok noHlaPatient)
  ∧ CreatePatient t0 seededLedger "DON-101" "c0ffee" "A+" "" "Kidney" "QmP9"
      "HOSP-APOLLO" = Err "patient DON-101 already exists".
Proof.
  split.
  - destruct (CreatePatient_creates_once t0 ∅ "PAT-9" "c0ffee" "A+" "" "Kidney"
                "QmP9" "HOSP-APOLLO") as [Hfree _].
    destruct (Hfree eq_refl) as (st' & Hc & Hg & _). by exists st'.
  - destruct (CreatePatient_creates_once t0 seededLedger "DON-101" "c0ffee"
                "A+" "" "Kidney" "QmP9" "HOSP-APOLLO") as [_ Htaken].
    apply Htaken. vm_compute. eexists. reflexivity.
Defined.

(** X2.  [CreateDonor] refuses a taken identifier before it looks at the
    organs.  On a free one it fails with "failed to parse organs" when the
    organs are not JSON, are a JSON value other than [null] and an array, or
    are an array with an element that is neither a string nor [null]; when
    the organs are [null], or an array of strings and [null]s, it stores a
    donor PENDING_VERIFICATION, verified by nobody, whose organs [GetDonor]
    reads back as given, a [null] element as the empty string and a [null]
    list as the empty list, touching no other key. *)
Theorem CreateDonor_registers_pending (now : string) (st : WorldState)
    (id name email phone bloodType hla : string)
    (organsAvailableJSON : option jval) (ipfsHash consentHash : string) :
  (is_Some (st !! id) →
     CreateDonor now st id name email phone bloodType hla organsAvailableJSON
       ipfsHash consentHash = Err ("donor " +:+ id +:+ " already exists"))
  ∧ (st !! id = None →
     organsAvailableJSON ≠ Some JNull →
     (∀ elems, organsAvailableJSON = Some (JArr elems) →
        ∃ v, v ∈ elems ∧ v ≠ JNull ∧ ∀ s, v ≠ JStr s) →
     CreateDonor now st id name email phone bloodType hla organsAvailableJSON
       ipfsHash consentHash
     = Err "failed to parse organs: json: cannot unmarshal")
  ∧ (∀ organs,
       st !! id = None →
       (∃ elems, organsAvailableJSON = Some (JArr elems)
                 ∧ Forall2 (λ v s, v = JStr s ∨ (v = JNull ∧ s = ""))
                     elems organs)
       ∨ (organsAvailableJSON = Some JNull ∧ organs = []) →
       ∃ st',
         CreateDonor now st id name email phone bloodType hla
           organsAvailableJSON ipfsHash consentHash = Ok st'
         ∧ GetDonor st' id
           = Ok (newDonor now id name email phone bloodType hla (Some organs)
                   ipfsHash consentHash)
         ∧ (∀ k, k ≠ id → st' !! k = st !! k)).
Proof.
  unfold CreateDonor, RecordExists, GetState. split; [|split].
  - by intros [o ->].
  - intros -> Hnull Harr.
    destruct organsAvailableJSON as [[|b|n|s|elems|m]|]; try done.
    destruct (Harr elems eq_refl) as (v & Hin & Hv & Hs).
    cbn [unmarshalOrgans]. destruct (forallb fitsElem elems) eqn:E; [|done].
    rewrite forallb_forall in E. apply list_elem_of_In, E in Hin.
    destruct v; try done. by destruct (Hs s).
  - intros organs -> [(elems & -> & Helems) | [-> ->]].
    + apply decode_elems in Helems as [Hfits Hdec].
      cbn [unmarshalOrgans]. rewrite Hfits, Hdec. eexists.
      split; [reflexivity|].
      split; [exact (GetDonor_PutState_marshal _ _ _)|].
      intros k Hk. by apply PutState_other.
    + simpl. eexists. split; [reflexivity|].
      split; [by rewrite GetDonor_PutState_marshal|].
      intros k Hk. by apply PutState_other.
Qed.

Lemma CreateDonor_registers_pending_witness :
  CreateDonor t0 seededLedger "PAT-001" "Ann" "" "" "O-" "A2" (Some (JBool true))
    "QmAnn" "0xann" = Err "donor PAT-001 already exists"
  ∧ CreateDonor t0 ∅ "DON-7" "Ann" "" "" "O-" "A2" (Some (JStr "Kidney"))
      "QmAnn" "0xann" = Err "failed to parse organs: json: cannot unmarshal"
  ∧ CreateDonor t0 ∅ "DON-7" "Ann" "" "" "O-" "A2"
      (Some (JArr [JStr "Kidney"; JNum "2"])) "QmAnn" "0xann"
    = Err "failed to parse organs: json: cannot unmarshal"
  ∧ (∃ st',
       CreateDonor t0 ∅ "DON-8" "Bob" "bob@example.org" "556" "A+" "A1"
         (Some JNull) "QmBob" "0xbob" = Ok st'
       ∧ GetDonor st' "DON-8"
         = Ok (newDonor t0 "DON-8" "Bob" "bob@example.org" "556" "A+" "A1"
                 (Some []) "QmBob" "0xbob"))
  ∧ (∃ st',
       CreateDonor t0 ∅ "DON-9" "Cy" "cy@example.org" "557" "B+" "A3"
         (Some (JArr [JStr "Kidney"; JNull])) "QmCy" "0xcy" = Ok st'
       ∧ GetDonor st' "DON-9"
         = Ok (newDonor t0 "DON-9" "Cy" "cy@example.org" "557" "B+" "A3"
                 (Some ["Kidney"; ""]) "QmCy" "0xcy")).
Proof.
  split; [|split; [|split; [|split]]].
  - destruct (CreateDonor_registers_pending t0 seededLedger "PAT-001" "Ann" ""
                "" "O-" "A2" (Some (JBool true)) "QmAnn" "0xann") as (H & _).
    apply H. vm_compute. eexists. reflexivity.
  - destruct (CreateDonor_registers_pending t0 ∅ "DON-7" "Ann" "" "" "O-" "A2"
                (Some (JStr "Kidney")) "QmAnn" "0xann") as (_ & H & _).
    apply H; [reflexivity | discriminate | discriminate].
  - destruct (CreateDonor_registers_pending t0 ∅ "DON-7" "Ann" "" "" "O-" "A2"
                (Some (JArr [JStr "Kidney"; JNum "2"])) "QmAnn" "0xann")
      as (_ & H & _).
    apply H; [reflexivity | discriminate |].
    intros elems [= <-]. exists (JNum "2").
    split; [apply list_elem_of_further, list_elem_of_here|].
    split; [discriminate|]. intros s. discriminate.
  - destruct (CreateDonor_registers_pending t0 ∅ "DON-8" "Bob" "bob@example.org"
                "556" "A+" "A1" (Some JNull) "QmBob" "0xbob") as (_ & _ & H).
    destruct (H [] eq_refl (or_intror (conj eq_refl eq_refl)))
      as (st' & Hc & Hg & _).
    by exists st'.
  - destruct (CreateDonor_registers_pending t0 ∅ "DON-9" "Cy" "cy@example.org"
                "557" "B+" "A3" (Some (JArr [JStr "Kidney"; JNull])) "QmCy"
                "0xcy") as (_ & _ & H).
    destruct (H ["Kidney"; ""] eq_refl) as (st' & Hc & Hg & _).
    { left. eexists. split; [reflexivity|].
      constructor; [by left|]. constructor; [by right|]. constructor. }
    by exists st'.
Defined.

(** ** Decisions and overrides *)

(** X3.  [VerifyDonor] reports a donor it cannot read before it looks at the
    status; for a stored donor it rejects every status other than VERIFIED
    and REJECTED, and otherwise records the status and the hospital, keeps
    every other field and every other key, and is not guarded against a
    second decision: a later decision replaces the earlier one. *)
Theorem VerifyDonor_decides (st : WorldState) (donorId hospitalId status : string) :
  (∀ e, GetDonor st donorId = Err e →
     VerifyDonor st donorId hospitalId status = Err e)
  ∧ (∀ d, GetDonor st donorId = Ok d →
       status ≠ "VERIFIED" → status ≠ "REJECTED" →
       VerifyDonor st donorId hospitalId status
       = Err "invalid status: must be VERIFIED or REJECTED")
  ∧ (∀ d, GetDonor st donorId = Ok d →
       status = "VERIFIED" ∨ status = "REJECTED" →
       ∃ st',
         VerifyDonor st donorId hospitalId status = Ok st'
         ∧ GetDonor st' donorId = Ok (Donor.setVerification status hospitalId d)
         ∧ (∀ k, k ≠ donorId → st' !! k = st !! k)
         ∧ (∀ hospitalId' status',
              VerifyDonor st' donorId hospitalId' status'
              = VerifyDonor st donorId hospitalId' status')).
Proof.
  unfold VerifyDonor. split; [|split].
  - by intros e ->.
  - intros d -> Hv Hr.
    apply String.eqb_neq in Hv as ->. by apply String.eqb_neq in Hr as ->.
  - intros d Hd Hs. rewrite Hd.
    assert (Hvalid : negb (String.eqb status "VERIFIED")
                     && negb (String.eqb status "REJECTED") = false)
      by (by destruct Hs as [-> | ->]).
    rewrite Hvalid. eexists. split; [reflexivity|].
    assert (Hd' : GetDonor
                    (PutState donorId
                       (Donor.marshal (Donor.setVerification status hospitalId d))
                       st) donorId
                  = Ok (Donor.setVerification status hospitalId d)).
    { rewrite GetDonor_PutState_marshal. f_equal.
      eapply ensureOrgans_Some. simpl. by eapply GetDonor_organs_Some. }
    split; [done|]. split; [intros k Hk; by apply PutState_other|].
    intros hospitalId' status'. rewrite Hd'.
    destruct (negb _ && negb _); [done|]. f_equal.
    unfold PutState. by rewrite insert_insert_eq.
Qed.

Lemma VerifyDonor_decides_witness :
  VerifyDonor seededLedger "DON-404" "HOSP-APOLLO" "MAYBE"
  = Err "donor DON-404 does not exist"
  ∧ VerifyDonor seededLedger "DON-101" "HOSP-APOLLO" "verified"
    = Err "invalid status: must be VERIFIED or REJECTED"
  ∧ (∃ st',
       VerifyDonor seededLedger "DON-101" "HOSP-APOLLO" "VERIFIED" = Ok st'
       ∧ GetDonor st' "DON-101" = Ok (seedDonor "VERIFIED" "HOSP-APOLLO")
       ∧ VerifyDonor st' "DON-101" "HOSP-AIIMS" "REJECTED"
         = VerifyDonor seededLedger "DON-101" "HOSP-AIIMS" "REJECTED").
Proof.
  assert (Hd : GetDonor seededLedger "DON-101" = Ok (seedDonor "" ""))
    by (vm_compute; reflexivity).
  split; [|split].
  - destruct (VerifyDonor_decides seededLedger "DON-404" "HOSP-APOLLO" "MAYBE")
      as (H & _).
    apply H. vm_compute. reflexivity.
  - destruct (VerifyDonor_decides seededLedger "DON-101" "HOSP-APOLLO" "verified")
      as (_ & H & _).
    apply (H _ Hd); discriminate.
  - destruct (VerifyDonor_decides seededLedger "DON-101" "HOSP-APOLLO" "VERIFIED")
      as (_ & _ & H).
    destruct (H _ Hd (or_introl eq_refl)) as (st' & Hv & Hg & _ & Hagain).
    exists st'. split; [done|]. split; [done|]. apply Hagain.
Defined.

(** X4.  [UpdatePatientStatus] accepts any status text for a stored patient:
    it rewrites the record with that status and every other field as it
    was, touches no other key, and a later call replaces the status again
    (so a MATCHED patient can be put back to WAITING). *)
Theorem UpdatePatientStatus_overrides (st : WorldState) (id status : string)
    (p : Patient.t) :
  GetPatient st id = Ok p →
  ∃ st',
    UpdatePatientStatus st id status = Ok st'
    ∧ GetPatient st' id = Ok (Patient.setStatus status p)
    ∧ (∀ k, k ≠ id → st' !! k = st !! k)
    ∧ (∀ status',
         UpdatePatientStatus st' id status' = UpdatePatientStatus st id status').
Proof.
  intros Hp. unfold UpdatePatientStatus. rewrite Hp. eexists.
  split; [reflexivity|].
  split; [apply GetPatient_PutState_marshal|].
  split; [intros k Hk; by apply PutState_other|].
  intros status'. rewrite GetPatient_PutState_marshal. f_equal.
  unfold PutState. by rewrite insert_insert_eq.
Qed.

Lemma UpdatePatientStatus_overrides_witness :
  ∃ p st1 st2,
    GetPatient (submit t0 seededLedger firstMatch) "PAT-001" = Ok p
    ∧ Patient.Status p = "MATCHED"
    ∧ UpdatePatientStatus (submit t0 seededLedger firstMatch) "PAT-001"
        "on hold" = Ok st1
    ∧ GetPatient st1 "PAT-001" = Ok (Patient.setStatus "on hold" p)
    ∧ UpdatePatientStatus st1 "PAT-001" "WAITING" = Ok st2
    ∧ GetPatient st2 "PAT-001" = Ok seedPatient.
Proof.
  assert (Hp : GetPatient (submit t0 seededLedger firstMatch) "PAT-001"
               = Ok (Patient.setStatus "MATCHED" seedPatient))
    by (vm_compute; reflexivity).
  destruct (UpdatePatientStatus_overrides _ "PAT-001" "on hold" _ Hp)
    as (st1 & Hu & Hg & _ & Hagain).
  destruct (UpdatePatientStatus_overrides _ "PAT-001" "WAITING" _ Hp)
    as (st2 & Hu2 & Hg2 & _).
  exists (Patient.setStatus "MATCHED" seedPatient), st1, st2.
  split; [done|]. split; [reflexivity|]. split; [done|]. split; [done|].
  rewrite Hagain. split; [done|]. exact Hg2.
Defined.

(** X5.  A key that is not stored makes every read and every update of a
    single record fail, each with its own message (the missing donor is
    reported even when the status to record is invalid), and the failed
    transaction changes nothing. *)
Theorem missing_key_errors (now : string) (st : WorldState) (id : string) :
  st !! id = None →
  GetPatient st id = Err ("patient " +:+ id +:+ " does not exist")
  ∧ GetDonor st id = Err ("donor " +:+ id +:+ " does not exist")
  ∧ GetHospital st id = Err ("hospital " +:+ id +:+ " does not exist")
  ∧ (∀ passwordHash,
       AuthenticateHospital st id passwordHash
       = Err "authentication failed: hospital not found")
  ∧ (∀ hospitalId status,
       VerifyDonor st id hospitalId status
       = Err ("donor " +:+ id +:+ " does not exist")
       ∧ submit now st (TxVerifyDonor id hospitalId status) = st)
  ∧ (∀ organ,
       UpdateDonorStatus st id organ = Err ("donor " +:+ id +:+ " does not exist")
       ∧ submit now st (TxUpdateDonorStatus id organ) = st)
  ∧ (∀ status,
       UpdatePatientStatus st id status
       = Err ("patient " +:+ id +:+ " does not exist")
       ∧ submit now st (TxUpdatePatientStatus id status) = st).
Proof.
  intros Hnone.
  unfold submit, invoke, AuthenticateHospital, VerifyDonor, UpdateDonorStatus,
    UpdatePatientStatus, GetPatient, GetDonor, GetHospital, GetState.
  rewrite Hnone. repeat split.
Qed.

Lemma missing_key_errors_witness :
  GetPatient hospitalLedger "PAT-001" = Err "patient PAT-001 does not exist"
  ∧ VerifyDonor hospitalLedger "DON-101" "HOSP-APOLLO" "nonsense"
    = Err "donor DON-101 does not exist".
Proof.
  destruct (missing_key_errors t0 hospitalLedger "PAT-001" eq_refl) as (Hp & _).
  destruct (missing_key_errors t0 hospitalLedger "DON-101" eq_refl)
    as (_ & _ & _ & _ & Hv & _).
  split; [exact Hp | exact (proj1 (Hv "HOSP-APOLLO" "nonsense"))].
Defined.

(** ** The bulk clear *)

Lemma GetStateByRange_keys (st : WorldState) (startKey endKey k : string) :
  k ∈ (GetStateByRange st startKey endKey).*1
  ↔ is_Some (st !! k)
    ∧ String.leb startKey k = true ∧ String.ltb k endKey = true.
Proof.
  rewrite list_elem_of_fmap. split.
  - intros ([k' v] & -> & (H & Ha & Hb)%elem_of_GetStateByRange). eauto.
  - intros ([v Hv] & Ha & Hb). exists (k, v).
    split; [done|]. by apply elem_of_GetStateByRange.
Qed.

Lemma ClearLedger_lookup (st : WorldState) (k : string) :
  deleteAll (GetStateByRange st "MATCH-" "MATCH-~")
    (deleteAll (GetStateByRange st "DON-" "DON-~")
       (deleteAll (GetStateByRange st "PAT-" "PAT-~") st)) !! k
  = if clearedKey k then None else st !! k.
Proof.
  rewrite !deleteAll_lookup_elem. unfold clearedKey.
  repeat case_decide;
    repeat match goal with
           | H : _ ∈ _.*1 |- _ =>
               apply GetStateByRange_keys in H as (_ & -> & ->)
           end; simpl; rewrite ?orb_true_r; try done.
  destruct (String.leb "PAT-" k && String.ltb k "PAT-~") eqn:Hp.
  { apply andb_true_iff in Hp as [Ha Hb]. simpl.
    destruct (st !! k) eqn:E; [|done].
    exfalso. apply H1. apply GetStateByRange_keys. eauto. }
  destruct (String.leb "DON-" k && String.ltb k "DON-~") eqn:Hd.
  { apply andb_true_iff in Hd as [Ha Hb]. simpl.
    destruct (st !! k) eqn:E; [|done].
    exfalso. apply H0. apply GetStateByRange_keys. eauto. }
  destruct (String.leb "MATCH-" k && String.ltb k "MATCH-~") eqn:Hm; [|done].
  apply andb_true_iff in Hm as [Ha Hb]. simpl.
  destruct (st !! k) eqn:E; [|done].
  exfalso. apply H. apply GetStateByRange_keys. eauto.
Qed.

Lemma hospital_key_not_cleared (k : string) :
  String.leb "HOSP-" k = true → String.ltb k "HOSP-~" = true →
  clearedKey k = false.
Proof.
  intros Ha Hb. unfold clearedKey.
  destruct (String.leb "PAT-" k) eqn:Hp.
  { by pose proof (String_leb_ltb_trans _ _ _ Hp Hb). }
  destruct (String.ltb k "DON-~") eqn:Hd.
  { by pose proof (String_leb_ltb_trans _ _ _ Ha Hd). }
  destruct (String.leb "MATCH-" k) eqn:Hm.
  { by pose proof (String_leb_ltb_trans _ _ _ Hm Hb). }
  by rewrite andb_false_r.
Qed.

(** X6.  [ClearLedger] always succeeds; afterwards exactly the keys of the
    ranges PAT-, DON- and MATCH- are gone and every other key is as before, so
    the three listings are empty, the hospitals are listed as they were, and
    clearing again changes nothing. *)
Theorem ClearLedger_clears (st : WorldState) :
  ∃ st',
    ClearLedger st = Ok st'
    ∧ (∀ k, st' !! k = if clearedKey k then None else st !! k)
    ∧ GetAllPatients st' = Ok []
    ∧ GetAllDonors st' = Ok []
    ∧ GetAllMatches st' = Ok []
    ∧ GetAllHospitals st' = GetAllHospitals st
    ∧ ClearLedger st' = Ok st'.
Proof.
  eexists. split; [reflexivity|].
  set (st' := deleteAll _ _).
  assert (Hlook : ∀ k, st' !! k = if clearedKey k then None else st !! k)
    by apply ClearLedger_lookup.
  assert (Hp : GetStateByRange st' "PAT-" "PAT-~" = []).
  { apply GetStateByRange_nil. intros k Ha Hb. rewrite Hlook.
    unfold clearedKey. by rewrite Ha, Hb. }
  assert (Hd : GetStateByRange st' "DON-" "DON-~" = []).
  { apply GetStateByRange_nil. intros k Ha Hb. rewrite Hlook.
    unfold clearedKey. by rewrite Ha, Hb, orb_true_r. }
  assert (Hm : GetStateByRange st' "MATCH-" "MATCH-~" = []).
  { apply GetStateByRange_nil. intros k Ha Hb. rewrite Hlook.
    unfold clearedKey. by rewrite Ha, Hb, orb_true_r. }
  split; [done|].
  unfold GetAllPatients, GetAllDonors, GetAllMatches, GetAllHospitals, ClearLedger.
  rewrite Hp, Hd, Hm. repeat split.
  f_equal. apply GetStateByRange_ext. intros k Ha Hb.
  by rewrite Hlook, hospital_key_not_cleared.
Qed.

(** ** Ledgers built by the contract *)

Lemma seedHospitals_inv (now : string) (h : Hospital.t) :
  h ∈ seedHospitals now →
  Hospital.DocType h = "hospital" ∧ Hospital.IsActive h = true
  ∧ (Hospital.ID h, Hospital.PasswordHash h)
    ∈ [ ("HOSP-APOLLO",
         "15da1cc6ebf7b7b13225c0d6d89e8cab4d40d4672c226618f1e74e5515685f2c");
        ("HOSP-AIIMS",
         "7810c7831b4fcefb7fb887bde3ef976b9d442d39216b155c84f1f67b38f49229");
        ("HOSP-FORTIS",
         "72cceae42f682d82c0dc46bcd62c2cf85a95422b3d35eda8ef3e6c7d219e7af6") ].
Proof.
  unfold seedHospitals. rewrite !elem_of_cons, elem_of_nil.
  intros [-> | [-> | [-> | []]]]; cbn [Hospital.DocType Hospital.IsActive
    Hospital.ID Hospital.PasswordHash]; (split; [done|]); (split; [done|]).
  - by left.
  - right. by left.
  - right. right. by left.
Qed.

Lemma storedRecord_fits (k : string) (o : jobj) :
  storedRecord k o →
  Patient.fits o = true ∧ Donor.fits o = true ∧ Match.fits o = true
  ∧ Hospital.fits o = true.
Proof.
  intros [p _ _ | d _ _ _ | m _ _ | now h _ _].
  - by destruct p.
  - destruct d as [? ? ? ? ? ? [organs|] ? ? ? ? ? ?]; [|done].
    repeat split; try done.
    unfold Donor.fits, fitsStrings. simpl. by rewrite fitsElem_JStr.
  - by destruct m.
  - by destruct h.
Qed.

Lemma storedRecord_as_patient (k : string) (o : jobj) :
  storedRecord k o →
  Patient.ID (Patient.unmarshal o) = k
  ∧ docTypeOk (Patient.DocType (Patient.unmarshal o)).
Proof.
  intros [p Hid Hdt | d Hid Hdt _ | m Hid Hdt | now h Hin Hid].
  - by destruct p.
  - by destruct d.
  - destruct m; simpl in *. split; [done|]. unfold docTypeOk. auto.
  - destruct (seedHospitals_inv now h Hin) as (Hdt & _).
    destruct h; simpl in *. split; [done|]. unfold docTypeOk. auto.
Qed.

Lemma storedRecord_as_donor (k : string) (o : jobj) :
  storedRecord k o →
  Donor.ID (readDonor o) = k
  ∧ docTypeOk (Donor.DocType (readDonor o))
  ∧ verificationOk (Donor.VerificationStatus (readDonor o))
      (Donor.VerifiedBy (readDonor o)).
Proof.
  assert (Hempty : verificationOk "" "") by (left; auto).
  intros [p Hid Hdt | d Hid Hdt Hv | m Hid Hdt | now h Hin Hid].
  - by destruct p.
  - by destruct d as [? ? ? ? ? ? [organs|] ? ? ? ? ? ?].
  - destruct m; simpl in *. split; [done|]. split; [|done].
    unfold docTypeOk. auto.
  - destruct (seedHospitals_inv now h Hin) as (Hdt & _).
    destruct h; simpl in *. split; [done|]. split; [|done].
    unfold docTypeOk. auto.
Qed.

Lemma storedRecord_as_hospital (k : string) (o : jobj) :
  storedRecord k o →
  Hospital.IsActive (Hospital.unmarshal o) = true →
  ∃ now h, h ∈ seedHospitals now ∧ Hospital.ID h = k ∧ Hospital.unmarshal o = h.
Proof.
  intros [p _ _ | d _ _ _ | m _ _ | now h Hin Hid].
  - by destruct p.
  - by destruct d as [? ? ? ? ? ? [organs|] ? ? ? ? ? ?].
  - by destruct m.
  - intros _. exists now, h.
    by destruct (Hospital_unmarshal_marshal h) as [-> _].
Qed.

Lemma ledgerOk_PutState (st : WorldState) (k : string) (o : jobj) :
  storedRecord k o → ledgerOk st → ledgerOk (PutState k o st).
Proof.
  intros Ho Hst k' o'. unfold PutState. rewrite lookup_insert.
  case_decide; [intros [= <-]; by subst | apply Hst].
Qed.

Lemma ledgerOk_deleteAll (entries : list (string * jobj)) (st : WorldState) :
  ledgerOk st → ledgerOk (deleteAll entries st).
Proof.
  intros Hst k o. rewrite deleteAll_lookup_elem. case_decide; [done | apply Hst].
Qed.

Lemma GetPatient_lookup (st : WorldState) (id : string) (p : Patient.t) :
  GetPatient st id = Ok p
  ↔ ∃ o, st !! id = Some o ∧ Patient.fits o = true ∧ p = Patient.unmarshal o.
Proof.
  unfold GetPatient, GetState. destruct (st !! id) as [o|].
  - destruct (Patient.fits o) eqn:Hf.
    + split; [intros [= <-]; eauto | by intros (? & [= <-] & _ & ->)].
    + split; [done | intros (? & [= <-] & ? & _); congruence].
  - split; [done | by intros (? & ? & _)].
Qed.

Lemma GetHospital_lookup (st : WorldState) (id : string) (h : Hospital.t) :
  GetHospital st id = Ok h
  ↔ ∃ o, st !! id = Some o ∧ Hospital.fits o = true ∧ h = Hospital.unmarshal o.
Proof.
  unfold GetHospital, GetState. destruct (st !! id) as [o|].
  - destruct (Hospital.fits o) eqn:Hf.
    + split; [intros [= <-]; eauto | by intros (? & [= <-] & _ & ->)].
    + split; [done | intros (? & [= <-] & ? & _); congruence].
  - split; [done | by intros (? & ? & _)].
Qed.

Lemma submit_ledgerOk (now : string) (st : WorldState) (t : tx) :
  ledgerOk st → ledgerOk (submit now st t).
Proof.
  intros Hst. unfold submit.
  assert (Hdt : ∀ s, s = "patient" ∨ s = "donor" ∨ s = "match" ∨ s = "hospital"
                     → docTypeOk s) by done.
  destruct t as [| | |pid ? ? ? ? ? ?|did ? ? ? ? ? organs ? ?|did hid status
                |did organ|mid pid ? ? ? ?|pid status]; simpl.
  - unfold putAll, seedDonors, seedPatients. cbn [foldl].
    repeat apply ledgerOk_PutState; try done;
      first [ apply stored_patient; [done | apply Hdt; auto]
            | apply stored_donor; [done | apply Hdt; auto | left; auto] ].
  - unfold putAll. cbn [foldl seedHospitals].
    repeat apply ledgerOk_PutState; try done;
      apply (stored_hospital _ now); [|done| |done| |done];
      unfold seedHospitals; rewrite !elem_of_cons; auto.
  - by do 3 apply ledgerOk_deleteAll.
  - unfold CreatePatient. destruct (RecordExists st pid); [done|].
    apply ledgerOk_PutState; [|done].
    apply stored_patient; [done | apply Hdt; auto].
  - unfold CreateDonor. destruct (RecordExists st did); [done|].
    destruct (unmarshalOrgans organs); [|done].
    apply ledgerOk_PutState; [|done].
    apply stored_donor; [done | apply Hdt; auto | left; auto].
  - unfold VerifyDonor. destruct (GetDonor st did) as [d|] eqn:E; [|done].
    destruct (negb (String.eqb status "VERIFIED")
              && negb (String.eqb status "REJECTED")) eqn:Hs; [done|].
    apply GetDonor_lookup in E as (o & Ho & _ & ->).
    destruct (storedRecord_as_donor _ _ (Hst _ _ Ho)) as (Hid & Hd & _).
    apply ledgerOk_PutState; [|done].
    apply stored_donor; [done | done |]. simpl. right.
    destruct (String.eqb_spec status "VERIFIED"); [auto|].
    destruct (String.eqb_spec status "REJECTED"); [auto | done].
  - unfold UpdateDonorStatus. destruct (GetDonor st did) as [d|] eqn:E; [|done].
    apply GetDonor_lookup in E as (o & Ho & _ & ->).
    destruct (storedRecord_as_donor _ _ (Hst _ _ Ho)) as (Hid & Hd & Hv).
    apply ledgerOk_PutState; [|done]. by apply stored_donor.
  - unfold CreateMatch. cbn zeta. apply ledgerOk_PutState; [by apply stored_match|].
    unfold GetState. destruct (st !! pid) as [o|] eqn:Ho; [|done].
    destruct (storedRecord_as_patient _ _ (Hst _ _ Ho)) as (Hid & Hd).
    apply ledgerOk_PutState; [|done]. by apply stored_patient.
  - unfold UpdatePatientStatus.
    destruct (GetPatient st pid) as [p|] eqn:E; [|done].
    apply GetPatient_lookup in E as (o & Ho & _ & ->).
    destruct (storedRecord_as_patient _ _ (Hst _ _ Ho)) as (Hid & Hd).
    apply ledgerOk_PutState; [|done]. by apply stored_patient.
Qed.

Lemma run_ledgerOk (trace : list (string * tx)) (st : WorldState) :
  ledgerOk st → ledgerOk (run trace st).
Proof.
  unfold run. revert st.
  induction trace as [|[now t] trace IH]; intros st Hst; simpl; [done|].
  by apply IH, submit_ledgerOk.
Qed.

Lemma reachable_ledgerOk (st : WorldState) : reachable st → ledgerOk st.
Proof. intros [trace ->]. apply run_ledgerOk. by intros k o. Qed.

Lemma seededLedger_reachable : reachable seededLedger.
Proof. by exists [(t0, TxInitLedger)]. Qed.

Lemma hospitalLedger_reachable : reachable hospitalLedger.
Proof. by exists [(t0, TxInitHospitals)]. Qed.

Lemma storedRecord_as_match (k : string) (o : jobj) :
  storedRecord k o → Match.ID (Match.unmarshal o) = k.
Proof.
  intros [p Hid _ | d Hid _ _ | m Hid _ | now h _ Hid].
  - by destruct p.
  - by destruct d.
  - by destruct m.
  - by destruct h.
Qed.

Lemma GetStateByRange_listedIds (st : WorldState) (prefix : string) :
  listedIds prefix (GetStateByRange st prefix (prefix +:+ "~")).*1.
Proof.
  split; [apply GetStateByRange_NoDup|]. split.
  - eapply StronglySorted_fmap; [|apply GetStateByRange_sorted]. done.
  - apply Forall_forall. intros k (_ & Ha & Hb)%GetStateByRange_keys. done.
Qed.

Lemma decoded_ids {A} (st : WorldState) (startKey endKey : string)
    (decode : jobj → A) (ID : A → string) :
  ledgerOk st →
  (∀ k o, storedRecord k o → ID (decode o) = k) →
  ID <$> map (λ kv, decode kv.2) (GetStateByRange st startKey endKey)
  = (GetStateByRange st startKey endKey).*1.
Proof.
  intros Hst Hid. rewrite <- list_fmap_compose. apply list_fmap_ext.
  intros i [k o] Hi. simpl. apply Hid, Hst.
  apply list_elem_of_lookup_2 in Hi.
  by apply elem_of_GetStateByRange in Hi as (H & _).
Qed.

(** X7.  On a ledger the transactions built, no stored record fails to
    decode: the four listings succeed, and [GetPatient], [GetDonor] and
    [GetHospital] each return a record for every stored key, of whatever type
    the record under it is (none of them looks at docType). *)
Theorem reachable_reads_succeed (st : WorldState) :
  reachable st →
  (∀ id, is_Some (st !! id) →
     ∃ p d h, GetPatient st id = Ok p ∧ GetDonor st id = Ok d
              ∧ GetHospital st id = Ok h)
  ∧ (∃ ps ds ms hs,
       GetAllPatients st = Ok ps ∧ GetAllDonors st = Ok ds
       ∧ GetAllMatches st = Ok ms ∧ GetAllHospitals st = Ok hs).
Proof.
  intros Hst%reachable_ledgerOk. split.
  - intros id [o Ho].
    destruct (storedRecord_fits _ _ (Hst _ _ Ho)) as (Hp & Hd & _ & Hh).
    do 3 eexists. split; [|split].
    + apply GetPatient_lookup. eauto.
    + apply GetDonor_lookup. eauto.
    + apply GetHospital_lookup. eauto.
  - assert (Hall : ∀ a b (fits : jobj → bool),
              (∀ k o, storedRecord k o → fits o = true) →
              Forall (λ kv, fits kv.2 = true) (GetStateByRange st a b)).
    { intros a b fits Hfits. apply Forall_forall.
      intros [k o] (Ho & _)%elem_of_GetStateByRange. eapply Hfits, Hst, Ho. }
    do 4 eexists. unfold GetAllPatients, GetAllDonors, GetAllMatches,
      GetAllHospitals.
    repeat split; apply decodeAll_Ok; (split; [|reflexivity]); apply Hall;
      intros k o Ho; by destruct (storedRecord_fits _ _ Ho) as (? & ? & ? & ?).
Qed.

Lemma reachable_reads_succeed_witness :
  ∃ p d,
    GetPatient seededLedger "DON-101" = Ok p
    ∧ Patient.DocType p = "donor" ∧ Patient.Status p = ""
    ∧ GetDonor seededLedger "PAT-001" = Ok d
    ∧ Donor.DocType d = "patient" ∧ Donor.organs d = [].
Proof.
  destruct (reachable_reads_succeed seededLedger seededLedger_reachable)
    as [Hget _].
  destruct (Hget "DON-101") as (p & _ & _ & Hp & _);
    [vm_compute; eexists; reflexivity|].
  destruct (Hget "PAT-001") as (_ & d & _ & _ & Hd & _);
    [vm_compute; eexists; reflexivity|].
  exists p, d.
  assert (Hp' := Hp). vm_compute in Hp'. injection Hp' as <-.
  assert (Hd' := Hd). vm_compute in Hd'. injection Hd' as <-.
  repeat split; done.
Defined.

(** X8.  On a ledger the transactions built, every record carries its key
    as its id: what [GetPatient], [GetDonor] and [GetHospital] return for a
    key has that key as id and one of the four docTypes, and each of the
    listings of patients, donors and matches has distinct ids, in ascending
    byte order, all within its range. *)
Theorem reachable_ids_are_keys (st : WorldState) :
  reachable st →
  (∀ id p, GetPatient st id = Ok p →
     Patient.ID p = id ∧ docTypeOk (Patient.DocType p))
  ∧ (∀ id d, GetDonor st id = Ok d →
       Donor.ID d = id ∧ docTypeOk (Donor.DocType d))
  ∧ (∀ ps, GetAllPatients st = Ok ps → listedIds "PAT-" (Patient.ID <$> ps))
  ∧ (∀ ds, GetAllDonors st = Ok ds → listedIds "DON-" (Donor.ID <$> ds))
  ∧ (∀ ms, GetAllMatches st = Ok ms → listedIds "MATCH-" (Match.ID <$> ms)).
Proof.
  intros Hst%reachable_ledgerOk. split; [|split; [|split; [|split]]].
  - intros id p (o & Ho & _ & ->)%GetPatient_lookup.
    by apply storedRecord_as_patient, Hst.
  - intros id d (o & Ho & _ & ->)%GetDonor_lookup.
    destruct (storedRecord_as_donor _ _ (Hst _ _ Ho)) as (? & ? & _). done.
  - intros ps [_ ->]%decodeAll_Ok.
    rewrite (decoded_ids st "PAT-" "PAT-~" Patient.unmarshal Patient.ID Hst).
    + apply (GetStateByRange_listedIds st "PAT-").
    + intros k o Ho. by apply storedRecord_as_patient.
  - intros ds [_ ->]%GetAllDonors_Ok.
    rewrite (decoded_ids st "DON-" "DON-~" readDonor Donor.ID Hst).
    + apply (GetStateByRange_listedIds st "DON-").
    + intros k o Ho. by apply storedRecord_as_donor.
  - intros ms [_ ->]%decodeAll_Ok.
    rewrite (decoded_ids st "MATCH-" "MATCH-~" Match.unmarshal Match.ID Hst).
    + apply (GetStateByRange_listedIds st "MATCH-").
    + intros k o Ho. by apply storedRecord_as_match.
Qed.

Lemma reachable_ids_are_keys_witness :
  ∃ ds,
    GetAllDonors seededLedger = Ok ds
    ∧ Donor.ID <$> ds = ["DON-101"; "DON-102"]
    ∧ listedIds "DON-" (Donor.ID <$> ds).
Proof.
  destruct (reachable_ids_are_keys seededLedger seededLedger_reachable)
    as (_ & _ & _ & Hds & _).
  eexists. split; [vm_compute; reflexivity|]. split; [reflexivity|].
  apply Hds. vm_compute. reflexivity.
Defined.

(** X9.  On a ledger the transactions built, the verification status of
    every donor read is empty, PENDING_VERIFICATION, VERIFIED or REJECTED, and
    verifiedBy is empty unless the status is VERIFIED or REJECTED. *)
Theorem reachable_verification_status (st : WorldState) (id : string)
    (d : Donor.t) :
  reachable st →
  GetDonor st id = Ok d →
  verificationOk (Donor.VerificationStatus d) (Donor.VerifiedBy d).
Proof.
  intros Hst%reachable_ledgerOk (o & Ho & _ & ->)%GetDonor_lookup.
  by destruct (storedRecord_as_donor _ _ (Hst _ _ Ho)) as (_ & _ & ?).
Qed.

Lemma reachable_verification_status_witness :
  verificationOk "" "".
Proof.
  apply (reachable_verification_status seededLedger "DON-101"
           (seedDonor "" "") seededLedger_reachable).
  vm_compute. reflexivity.
Defined.

(** X10.  On a ledger the transactions built, [AuthenticateHospital]
    succeeds only for one of the three hospitals of [InitHospitals] with the
    password hash it was seeded with: no transaction registers a hospital or
    changes a credential. *)
Theorem only_seeded_hospitals_authenticate (st : WorldState)
    (id passwordHash : string) (info : jobj) :
  reachable st →
  AuthenticateHospital st id passwordHash = Ok info →
  (id, passwordHash)
  ∈ [ ("HOSP-APOLLO",
       "15da1cc6ebf7b7b13225c0d6d89e8cab4d40d4672c226618f1e74e5515685f2c");
      ("HOSP-AIIMS",
       "7810c7831b4fcefb7fb887bde3ef976b9d442d39216b155c84f1f67b38f49229");
      ("HOSP-FORTIS",
       "72cceae42f682d82c0dc46bcd62c2cf85a95422b3d35eda8ef3e6c7d219e7af6") ]
  ∧ member "id" info = Some (JStr id).
Proof.
  intros Hst%reachable_ledgerOk. unfold AuthenticateHospital.
  destruct (GetHospital st id) as [h|] eqn:Hh; [|done].
  destruct (Hospital.IsActive h) eqn:Ha; [|done]. simpl.
  destruct (String.eqb_spec (Hospital.PasswordHash h) passwordHash)
    as [<-|]; [|done].
  intros [= <-]. apply GetHospital_lookup in Hh as (o & Ho & _ & ->).
  destruct (storedRecord_as_hospital _ _ (Hst _ _ Ho) Ha)
    as (now & h & Hin & <- & ->).
  destruct (seedHospitals_inv now h Hin) as (_ & _ & Hpair). done.
Qed.

Lemma only_seeded_hospitals_authenticate_witness :
  ("HOSP-APOLLO", apolloHash)
  ∈ [ ("HOSP-APOLLO",
       "15da1cc6ebf7b7b13225c0d6d89e8cab4d40d4672c226618f1e74e5515685f2c");
      ("HOSP-AIIMS",
       "7810c7831b4fcefb7fb887bde3ef976b9d442d39216b155c84f1f67b38f49229");
      ("HOSP-FORTIS",
       "72cceae42f682d82c0dc46bcd62c2cf85a95422b3d35eda8ef3e6c7d219e7af6") ].
Proof.
  eapply (only_seeded_hospitals_authenticate hospitalLedger "HOSP-APOLLO"
            apolloHash _ hospitalLedger_reachable).
  vm_compute. reflexivity.
Defined.

(** ** Registration and the listings *)

Lemma GetStateByRange_PutState_free (st : WorldState)
    (startKey endKey id : string) (o : jobj) (kv : string * jobj) :
  st !! id = None →
  String.leb startKey id = true → String.ltb id endKey = true →
  kv ∈ GetStateByRange (PutState id o st) startKey endKey
  ↔ kv = (id, o) ∨ kv ∈ GetStateByRange st startKey endKey.
Proof.
  intros Hfree Ha Hb. destruct kv as [k v].
  rewrite !elem_of_GetStateByRange. unfold PutState. rewrite lookup_insert.
  case_decide as Hk.
  - subst. split.
    + intros ([= <-] & _). by left.
    + intros [[= <-] | (H & _)]; [done | congruence].
  - split; [by right|]. by intros [[= <- <-] | ?].
Qed.

Lemma GetStateByRange_PutState_outside (st : WorldState)
    (startKey endKey id : string) (o : jobj) :
  ¬ (String.leb startKey id = true ∧ String.ltb id endKey = true) →
  GetStateByRange (PutState id o st) startKey endKey
  = GetStateByRange st startKey endKey.
Proof.
  intros Hout. apply GetStateByRange_ext. intros k Ha Hb.
  apply PutState_other. intros ->. by apply Hout.
Qed.

(** X11.  [CreateDonor] checks no prefix.  A donor registered under a free
    identifier of the range from "DON-" to "DON-~" joins the listing of
    [GetAllDonors], which otherwise keeps its entries; a donor registered
    under any other identifier is stored, and [GetDonor] returns it, but the
    listing stays as it was. *)
Theorem CreateDonor_listed_iff_in_range (now : string) (st : WorldState)
    (id name email phone bloodType hla : string) (organs : list string)
    (ipfsHash consentHash : string) (ds : list Donor.t) :
  st !! id = None →
  GetAllDonors st = Ok ds →
  ∃ st' ds',
    CreateDonor now st id name email phone bloodType hla (Some (JStrs organs))
      ipfsHash consentHash = Ok st'
    ∧ GetDonor st' id
      = Ok (newDonor now id name email phone bloodType hla (Some organs)
              ipfsHash consentHash)
    ∧ GetAllDonors st' = Ok ds'
    ∧ (String.leb "DON-" id = true ∧ String.ltb id "DON-~" = true →
         ∀ d, d ∈ ds'
              ↔ d = newDonor now id name email phone bloodType hla
                      (Some organs) ipfsHash consentHash
                ∨ d ∈ ds)
    ∧ (¬ (String.leb "DON-" id = true ∧ String.ltb id "DON-~" = true) →
         ds' = ds).
Proof.
  intros Hfree [Hfits ->]%GetAllDonors_Ok.
  unfold CreateDonor, RecordExists, GetState.
  rewrite Hfree, unmarshalOrgans_JStrs.
  set (d := Donor.mk id name email phone bloodType hla (Some organs) ipfsHash
              consentHash "PENDING_VERIFICATION" "" "donor" now).
  set (st' := PutState id (Donor.marshal d) st).
  assert (Hread : readDonor (Donor.marshal d) = d).
  { unfold readDonor. by rewrite (proj1 (Donor_unmarshal_marshal d)). }
  destruct (decide (String.leb "DON-" id = true ∧ String.ltb id "DON-~" = true))
    as [[Ha Hb]|Hout].
  - assert (Hfits' : Forall (λ kv, Donor.fits kv.2 = true)
                       (GetStateByRange st' "DON-" "DON-~")).
    { apply Forall_forall. intros kv Hkv.
      apply GetStateByRange_PutState_free in Hkv as [-> | Hkv];
        [apply Donor_unmarshal_marshal| |assumption..].
      by eapply Forall_forall in Hfits. }
    exists st', (map (λ kv, readDonor kv.2) (GetStateByRange st' "DON-" "DON-~")).
    split; [reflexivity|]. split; [exact (GetDonor_PutState_marshal st id d)|].
    split; [by apply GetAllDonors_Ok|]. split; [|by intros []].
    intros _ d'. rewrite !list_elem_of_fmap. split.
    + intros (kv & -> & Hkv).
      apply GetStateByRange_PutState_free in Hkv as [-> | Hkv]; [| |assumption..].
      * by left.
      * right. eauto.
    + intros [-> | (kv & -> & Hkv)].
      * exists (id, Donor.marshal d). split; [symmetry; exact Hread|].
        apply GetStateByRange_PutState_free; auto.
      * exists kv. split; [reflexivity|].
        apply GetStateByRange_PutState_free; auto.
  - exists st', (map (λ kv, readDonor kv.2) (GetStateByRange st "DON-" "DON-~")).
    split; [reflexivity|]. split; [exact (GetDonor_PutState_marshal st id d)|].
    split; [|by split].
    apply GetAllDonors_Ok. unfold st'.
    by rewrite GetStateByRange_PutState_outside.
Qed.

Lemma CreateDonor_listed_iff_in_range_witness :
  ∃ st' ds ds',
    GetAllDonors seededLedger = Ok ds
    ∧ CreateDonor t0 seededLedger "donor-7" "Ann" "" "" "O-" "A2"
        (Some (JStrs ["Heart"])) "QmAnn" "0xann" = Ok st'
    ∧ GetDonor st' "donor-7"
      = Ok (newDonor t0 "donor-7" "Ann" "" "" "O-" "A2" (Some ["Heart"])
              "QmAnn" "0xann")
    ∧ GetAllDonors st' = Ok ds'
    ∧ ds' = ds.
Proof.
  assert (Hds : ∃ ds, GetAllDonors seededLedger = Ok ds)
    by (eexists; vm_compute; reflexivity).
  destruct Hds as [ds Hds].
  assert (Hfree : seededLedger !! "donor-7" = None)
    by (vm_compute; reflexivity).
  assert (Hout : ¬ (String.leb "DON-" "donor-7" = true
                    ∧ String.ltb "donor-7" "DON-~" = true)).
  { intros [_ Hlt]. vm_compute in Hlt. discriminate Hlt. }
  destruct (CreateDonor_listed_iff_in_range t0 seededLedger "donor-7" "Ann" ""
              "" "O-" "A2" ["Heart"] "QmAnn" "0xann" ds Hfree Hds)
    as (st' & ds' & Hc & Hg & Hl & _ & Hsame).
  exists st', ds, ds'.
  split; [exact Hds|]. split; [exact Hc|]. split; [exact Hg|].
  split; [exact Hl|]. exact (Hsame Hout).
Defined.

(** ** The compatibility chart as an order *)

Lemma bloodTypeName_cases (s : string) :
  s = "O-" ∨ s = "O+" ∨ s = "A-" ∨ s = "A+" ∨ s = "B-" ∨ s = "B+"
  ∨ s = "AB-" ∨ s = "AB+" →
  ∃ t, s = bloodTypeName t.
Proof.
  intros [-> | [-> | [-> | [-> | [-> | [-> | [-> | ->]]]]]]];
    [by exists Oneg | by exists Opos | by exists Aneg | by exists Apos
    | by exists Bneg | by exists Bpos | by exists ABneg | by exists ABpos].
Qed.

Lemma includes_elem_of (l : list string) (x : string) :
  includes l x = true ↔ x ∈ l.
Proof.
  unfold includes. induction l as [|y l IH]; simpl.
  - split; [done | by intros ?%elem_of_nil].
  - rewrite orb_true_iff, IH, elem_of_cons, String.eqb_eq. done.
Qed.

Lemma canReceiveFrom_known (r d : string) :
  canReceiveFrom r d = true →
  ∃ tr td, r = bloodTypeName tr ∧ d = bloodTypeName td.
Proof.
  unfold canReceiveFrom.
  destruct (chartRow r compatibilityChart) as [row|] eqn:Hrow; [|done].
  intros Hd%includes_elem_of.
  assert (Hr : ∃ tr, r = bloodTypeName tr
                     ∧ row ∈ compatibilityChart.*2).
  { unfold compatibilityChart in *. simpl in Hrow.
    repeat match type of Hrow with
           | (if String.eqb ?x ?y then _ else _) = _ =>
               destruct (String.eqb_spec x y) as [->|_]
           end; try done; injection Hrow as <-.
    - exists Oneg. split; [done|]. simpl. rewrite !elem_of_cons. auto.
    - exists Opos. split; [done|]. simpl. rewrite !elem_of_cons. auto.
    - exists Aneg. split; [done|]. simpl. rewrite !elem_of_cons. auto.
    - exists Apos. split; [done|]. simpl. rewrite !elem_of_cons. auto.
    - exists Bneg. split; [done|]. simpl. rewrite !elem_of_cons. auto 6.
    - exists Bpos. split; [done|]. simpl. rewrite !elem_of_cons. auto 7.
    - exists ABneg. split; [done|]. simpl. rewrite !elem_of_cons. auto 8.
    - exists ABpos. split; [done|]. simpl. rewrite !elem_of_cons. auto 9. }
  destruct Hr as (tr & -> & Hin). exists tr.
  assert (∃ td, d = bloodTypeName td) as [td ->]; [|by exists td].
  apply bloodTypeName_cases.
  simpl in Hin. rewrite !elem_of_cons, elem_of_nil in Hin.
  destruct Hin as [-> | [-> | [-> | [-> | [-> | [-> | [-> | [-> | []]]]]]]]];
    rewrite !elem_of_cons, elem_of_nil in Hd;
    repeat (destruct Hd as [-> | Hd]; [auto 10|]); done.
Qed.

(** X12.  [canReceiveFrom] is true only between two of the eight blood
    types (any other text is compatible with nothing); on them it is
    transitive and antisymmetric, an Rh-negative recipient receives from
    Rh-negative donors only, and an O- recipient from O- only. *)
Theorem canReceiveFrom_partial_order :
  (∀ r d, canReceiveFrom r d = true →
     ∃ tr td, r = bloodTypeName tr ∧ d = bloodTypeName td)
  ∧ (∀ a b c, canReceiveFrom a b = true → canReceiveFrom b c = true →
       canReceiveFrom a c = true)
  ∧ (∀ a b, canReceiveFrom a b = true → canReceiveFrom b a = true → a = b)
  ∧ (∀ r d, canReceiveFrom r d = true → rhNegative r = true →
       rhNegative d = true)
  ∧ (∀ d, canReceiveFrom "O-" d = true ↔ d = "O-").
Proof.
  split; [apply canReceiveFrom_known|]. split; [|split; [|split]].
  - intros a b c Hab Hbc.
    destruct (canReceiveFrom_known _ _ Hab) as (ta & tb & -> & ->).
    destruct (canReceiveFrom_known _ _ Hbc) as (_ & tc & _ & ->).
    by destruct ta, tb, tc.
  - intros a b Hab Hba.
    destruct (canReceiveFrom_known _ _ Hab) as (ta & tb & -> & ->).
    by destruct ta, tb.
  - intros r d Hrd.
    destruct (canReceiveFrom_known _ _ Hrd) as (tr & td & -> & ->).
    by destruct tr, td.
  - intros d. split; [|by intros ->].
    intros H. destruct (canReceiveFrom_known _ _ H) as (_ & td & _ & ->).
    by destruct td.
Qed.

(** ** The HLA component *)

Lemma filter_length_all {A} (f : A → bool) (l : list A) :
  length (List.filter f l) = length l ↔ ∀ x, x ∈ l → f x = true.
Proof.
  induction l as [|x l IH]; simpl.
  - split; [by intros _ x ?%elem_of_nil | done].
  - pose proof (List.filter_length_le f l) as Hle.
    destruct (f x) eqn:Hx; simpl.
    + split.
      * intros [= H]. intros y [-> | Hy]%elem_of_cons; [done|].
        by apply IH.
      * intros H. f_equal. apply IH. intros y Hy. apply H. by right.
    + split; [lia|]. intros H. specialize (H x). rewrite Hx in H.
      discriminate H. by left.
Qed.

Lemma filter_length_none {A} (f : A → bool) (l : list A) :
  length (List.filter f l) = 0%nat ↔ ∀ x, x ∈ l → f x = false.
Proof.
  induction l as [|x l IH]; simpl.
  - split; [by intros _ x ?%elem_of_nil | done].
  - destruct (f x) eqn:Hx; simpl.
    + split; [done|]. intros H. specialize (H x). rewrite Hx in H.
      discriminate H. by left.
    + rewrite IH. split.
      * intros H y [-> | Hy]%elem_of_cons; auto.
      * intros H y Hy. apply H. by right.
Qed.

Lemma ratio_times_100 (c m : Z) :
  (0 < m)%Z →
  ((inject_Z c / inject_Z m * 100 == 100)%Q ↔ c = m)
  ∧ ((inject_Z c / inject_Z m * 100 == 0)%Q ↔ c = 0%Z).
Proof.
  intros Hm.
  assert (Hm' : ¬ (inject_Z m == 0)%Q).
  { intros H. apply (inject_Z_injective m 0) in H. lia. }
  pose proof (Qmult_div_r (inject_Z c) (inject_Z m) Hm') as Hdiv.
  set (r := (inject_Z c / inject_Z m)%Q) in *.
  split; split.
  - intros H. apply inject_Z_injective.
    assert (Hr : (r == 1)%Q) by lra. rewrite Hr in Hdiv. lra.
  - intros Hc. apply (f_equal inject_Z) in Hc.
    assert (Hr : (inject_Z m * r == inject_Z m * 1)%Q) by (rewrite Hdiv, Hc; lra).
    apply Qmult_inj_l in Hr; [lra | done].
  - intros H. apply (inject_Z_injective c 0). change (inject_Z 0) with 0%Q.
    assert (Hr : (r == 0)%Q) by lra. rewrite Hr in Hdiv. lra.
  - intros ->. unfold r, Qdiv. change (inject_Z 0) with 0%Q. lra.
Qed.

(** X13.  The HLA component is 100 exactly when every token of the patient
    occurs among the donor's tokens, 0 exactly when none does, and depends on
    the donor's tokens as a set only (their order and repetitions do not
    matter). *)
Theorem hlaRawScore_extremes (patient : Patient.t) (donor : Donor.t) :
  ((hlaRawScore patient donor == 100)%Q
   ↔ ∀ t, t ∈ patientHla patient → t ∈ donorHla donor)
  ∧ ((hlaRawScore patient donor == 0)%Q
     ↔ ∀ t, t ∈ patientHla patient → t ∉ donorHla donor)
  ∧ (∀ donor', (∀ t, t ∈ donorHla donor' ↔ t ∈ donorHla donor) →
       hlaRawScore patient donor' = hlaRawScore patient donor).
Proof.
  pose proof (patientHla_nonempty patient) as Hn.
  assert (Hmax : Z.max (Z.of_nat (length (patientHla patient))) 1
                 = Z.of_nat (length (patientHla patient))) by lia.
  destruct (ratio_times_100
              (Z.of_nat (length (commonAntigens patient donor)))
              (Z.of_nat (length (patientHla patient)))) as [H100 H0]; [lia|].
  unfold hlaRawScore. rewrite Hmax. split; [|split].
  - rewrite H100, Nat2Z.inj_iff. unfold commonAntigens.
    rewrite filter_length_all. by setoid_rewrite includes_elem_of.
  - rewrite H0. change 0%Z with (Z.of_nat 0). rewrite Nat2Z.inj_iff.
    unfold commonAntigens. rewrite filter_length_none.
    split; intros H t Ht.
    + intros Hin%includes_elem_of. by rewrite (H t Ht) in Hin.
    + destruct (includes (donorHla donor) t) eqn:E; [|done].
      apply includes_elem_of in E. by destruct (H t Ht).
  - intros donor' Hsame.
    assert (Hc : commonAntigens patient donor' = commonAntigens patient donor);
      [|by rewrite Hc].
    unfold commonAntigens. apply List.filter_ext. intros t.
    destruct (includes (donorHla donor') t) eqn:E1,
             (includes (donorHla donor) t) eqn:E2; try done.
    + apply includes_elem_of, Hsame, includes_elem_of in E1. congruence.
    + apply includes_elem_of, Hsame, includes_elem_of in E2. congruence.
Qed.

(** ** Tokens *)

Lemma split_nonempty (s : string) : split s ≠ [].
Proof.
  destruct s as [|c s]; simpl; [done|].
  destruct (Ascii.eqb c ","); [done|]. by destruct (split s).
Qed.

Lemma concat_split (s : string) : String.concat "," (split s) = s.
Proof.
  induction s as [|c s IH]; [done|]. simpl.
  destruct (Ascii.eqb_spec c ",") as [->|Hc].
  - pose proof (split_nonempty s) as Hne.
    destruct (split s) as [|piece pieces]; [done|].
    simpl in *. by rewrite IH.
  - pose proof (split_nonempty s) as Hne.
    destruct (split s) as [|piece pieces]; [done|].
    simpl in *. destruct pieces; simpl in *; by rewrite <- IH.
Qed.

Lemma split_no_comma (s piece : string) :
  piece ∈ split s → ¬ hasChar "," piece.
Proof.
  unfold hasChar. revert piece. induction s as [|c s IH]; intros piece; simpl.
  - intros ->%list_elem_of_singleton. simpl. apply not_elem_of_nil.
  - destruct (Ascii.eqb_spec c ",") as [->|Hc].
    + intros [-> | Hin]%elem_of_cons; [apply not_elem_of_nil | by apply IH].
    + pose proof (split_nonempty s) as Hne.
      destruct (split s) as [|p ps]; [done|].
      intros [-> | Hin]%elem_of_cons.
      * simpl. intros [<- | Hp]%elem_of_cons; [done|].
        revert Hp. apply IH. by left.
      * apply IH. by right.
Qed.

Lemma trimStart_chars (c : ascii) (s : string) :
  hasChar c (trimStart s) → hasChar c s.
Proof.
  unfold hasChar. induction s as [|a s IH]; simpl; [done|].
  destruct (isWhiteSpace a); [|done]. intros H. right. by apply IH.
Qed.

Lemma trimEnd_chars (c : ascii) (s : string) :
  hasChar c (trimEnd s) → hasChar c s.
Proof.
  unfold hasChar. induction s as [|a s IH]; simpl; [done|].
  destruct (trimEnd s) as [|b t] eqn:E.
  - destruct (isWhiteSpace a); simpl.
    + by intros ?%elem_of_nil.
    + intros [-> | ?%elem_of_nil]%elem_of_cons; [by left | done].
  - simpl. intros [-> | H]%elem_of_cons; [by left|]. right. by apply IH.
Qed.

Lemma trimStart_fixed (s : string) :
  match s with String a _ => isWhiteSpace a = false | EmptyString => True end →
  trimStart s = s.
Proof. destruct s as [|a s]; simpl; [done|]. by intros ->. Qed.

Lemma trimStart_head (s : string) :
  match trimStart s with
  | String a _ => isWhiteSpace a = false
  | EmptyString => True
  end.
Proof.
  induction s as [|a s IH]; simpl; [done|].
  by destruct (isWhiteSpace a) eqn:E.
Qed.

Lemma trimEnd_head (s : string) :
  match s with String a _ => isWhiteSpace a = false | EmptyString => True end →
  match trimEnd s with
  | String a _ => isWhiteSpace a = false
  | EmptyString => True
  end.
Proof.
  destruct s as [|a s]; simpl; [done|]. intros Ha.
  destruct (trimEnd s); [by rewrite Ha | done].
Qed.

Lemma trimEnd_idempotent (s : string) : trimEnd (trimEnd s) = trimEnd s.
Proof.
  induction s as [|a s IH]; simpl; [done|].
  destruct (trimEnd s) as [|b t] eqn:E.
  - destruct (isWhiteSpace a) eqn:Ha; simpl; [done | by rewrite Ha].
  - simpl in *. by rewrite IH.
Qed.

Lemma trim_idempotent (s : string) : trim (trim s) = trim s.
Proof.
  unfold trim.
  rewrite (trimStart_fixed (trimEnd (trimStart s))).
  - apply trimEnd_idempotent.
  - apply trimEnd_head, trimStart_head.
Qed.

(** X14.  An [hla] field always yields at least one token, one per
    comma-separated piece; joining the pieces with commas gives the field
    back; and every token is trimmed and free of commas. *)
Theorem hlaTokens_shape (hla : string) :
  (1 ≤ length (hlaTokens hla))%nat
  ∧ length (hlaTokens hla) = length (split hla)
  ∧ String.concat "," (split hla) = hla
  ∧ Forall (λ token, trim token = token ∧ ¬ hasChar "," token) (hlaTokens hla).
Proof.
  split; [|split; [|split]].
  - unfold hlaTokens. rewrite length_map.
    pose proof (split_nonempty hla). destruct (split hla); simpl; [done | lia].
  - unfold hlaTokens. apply length_map.
  - apply concat_split.
  - unfold hlaTokens. apply Forall_forall. intros token Hin.
    apply list_elem_of_fmap in Hin as (piece & -> & Hin).
    split; [apply trim_idempotent|].
    intros H. unfold trim in H.
    apply trimEnd_chars, trimStart_chars in H. by eapply split_no_comma.
Qed.

(** ** The waitlist component and the reason shown *)

Section PortalFacts.

Variable Date_now : Z.
Variable Date_parse : string → Z.
Variable patient : Patient.t.
Variable donor : Donor.t.

Lemma daysWaitingExact_ms :
  (daysWaitingExact Date_now Date_parse patient * 86400000
   == inject_Z (waitedMs Date_now Date_parse patient))%Q.
Proof.
  unfold daysWaitingExact, waitedMs.
  change (inject_Z (1000 * 60 * 60 * 24)) with (86400000 # 1).
  field.
Qed.

(** X15.  The waitlist component is 100 from 30 days of waiting on, grows
    linearly with the time waited up to there, and is negative, not 0, for a
    patient whose [createdAt] lies in the future; when it does not, the
    component and the total score are at least 0 (and the total at most
    100). *)
Theorem waitlistScore_ramp :
  ((30 * msPerDay <= waitedMs Date_now Date_parse patient)%Z →
     (waitlistScore Date_now Date_parse patient == 100)%Q)
  ∧ ((waitedMs Date_now Date_parse patient <= 30 * msPerDay)%Z →
       (waitlistScore Date_now Date_parse patient
        == inject_Z (waitedMs Date_now Date_parse patient) * 100
           / inject_Z (30 * msPerDay))%Q)
  ∧ ((waitedMs Date_now Date_parse patient < 0)%Z →
       (waitlistScore Date_now Date_parse patient < 0)%Q)
  ∧ ((0 <= waitedMs Date_now Date_parse patient)%Z →
       (0 <= waitlistScore Date_now Date_parse patient)%Q
       ∧ (0 <= totalScore Date_now Date_parse patient donor <= 100)%Q).
Proof.
  pose proof daysWaitingExact_ms as Hms.
  pose proof (hlaRawScore_range patient donor) as [Hh0 Hh1].
  unfold totalScore, bonus, waitlistScore.
  set (days := daysWaitingExact Date_now Date_parse patient) in *.
  set (ms := inject_Z (waitedMs Date_now Date_parse patient)) in *.
  change (inject_Z (30 * msPerDay)) with (2592000000 # 1).
  assert (H30 : (inject_Z (30 * msPerDay) == 2592000000)%Q) by done.
  assert (Hmin : ((days / 30 < 1 ∧ Qmin (days / 30) 1 == days / 30)
                  ∨ (1 <= days / 30 ∧ Qmin (days / 30) 1 == 1))%Q)
    by apply Q.min_spec.
  set (w := Qmin (days / 30) 1) in *.
  assert (Hd : (days / 30 == days * (1 # 30))%Q) by reflexivity.
  set (d30 := (days / 30)%Q) in *.
  assert (Hlin : ∀ x : Q, (x * 100 / (2592000000 # 1) == x * (100 # 2592000000))%Q)
    by (intros x; field).
  rewrite Hlin.
  split; [|split; [|split]].
  - intros H. rewrite Zle_Qle, H30 in H. fold ms in H.
    destruct Hmin as [[Hc Hw] | [Hc Hw]]; lra.
  - intros H. rewrite Zle_Qle, H30 in H. fold ms in H.
    destruct Hmin as [[Hc Hw] | [Hc Hw]]; lra.
  - intros H. rewrite Zlt_Qlt in H. fold ms in H. change (inject_Z 0) with 0%Q in H.
    destruct Hmin as [[Hc Hw] | [Hc Hw]]; lra.
  - intros H. rewrite Zle_Qle in H. fold ms in H. change (inject_Z 0) with 0%Q in H.
    assert (Hw0 : (0 <= w <= 1)%Q)
      by (destruct Hmin as [[Hc Hw] | [Hc Hw]]; lra).
    split; [lra|].
    destruct (isCompatible patient donor); [|lra].
    destruct (isExactBloodMatch patient donor); lra.
Qed.

(** X16.  The reason shown is "Compatible" exactly for the compatible
    candidates; otherwise the first failing test is named: the verification,
    then the blood type, then the organ. *)
Theorem reason_explains :
  let c := scoreDonor Date_now Date_parse patient donor in
  (reason c = "Compatible" ↔ compatible c = true)
  ∧ (Donor.VerificationStatus donor ≠ "VERIFIED" →
       reason c = "Donor Not Verified")
  ∧ (Donor.VerificationStatus donor = "VERIFIED" →
       canReceiveFrom (Patient.BloodType patient) (Donor.BloodType donor) = false →
       reason c = "Blood Mismatch")
  ∧ (Donor.VerificationStatus donor = "VERIFIED" →
       canReceiveFrom (Patient.BloodType patient) (Donor.BloodType donor) = true →
       Patient.OrganNeeded patient ∉ Donor.organs donor →
       reason c = "Organ Mismatch").
Proof.
  simpl. unfold isCompatible, isBloodCompatible, isOrganCompatible.
  pose proof (isVerified_spec donor) as Hv.
  pose proof (includes_elem_of (Donor.organs donor) (Patient.OrganNeeded patient))
    as Ho.
  destruct (isVerified donor) eqn:Ev.
  - assert (Hs : Donor.VerificationStatus donor = "VERIFIED") by by apply Hv.
    destruct (canReceiveFrom _ _) eqn:Eb;
      destruct (includes _ _) eqn:Eo; simpl;
      (split; [done|]); (split; [done|]); (split; [done|]); try done.
    intros _ _ Hn. destruct Hn. by apply Ho.
  - assert (Hs : Donor.VerificationStatus donor ≠ "VERIFIED").
    { intros H. apply Hv in H. done. }
    rewrite andb_false_r. simpl. repeat split; done.
Qed.

End PortalFacts.

Lemma waitlistScore_ramp_witness :
  (waitlistScore thirtyDays (λ _, 0%Z) seedPatient == 100)%Q
  ∧ (waitlistScore 1296000000 (λ _, 0%Z) seedPatient == 50)%Q
  ∧ (waitlistScore 0 (λ _, 86400000%Z) seedPatient < 0)%Q.
Proof.
  split; [|split].
  - destruct (waitlistScore_ramp thirtyDays (λ _, 0%Z) seedPatient
                (seedDonor "VERIFIED" "HOSP-APOLLO")) as (H & _).
    apply H. vm_compute. discriminate.
  - destruct (waitlistScore_ramp 1296000000 (λ _, 0%Z) seedPatient
                (seedDonor "VERIFIED" "HOSP-APOLLO")) as (_ & H & _).
    rewrite H by (vm_compute; discriminate). vm_compute. reflexivity.
  - destruct (waitlistScore_ramp 0 (λ _, 86400000%Z) seedPatient
                (seedDonor "VERIFIED" "HOSP-APOLLO")) as (_ & _ & H & _).
    apply H. vm_compute. reflexivity.
Defined.

Lemma reason_explains_witness :
  reason (scoreDonor thirtyDays (λ _, 0%Z) seedPatient
            (seedDonor "VERIFIED" "HOSP-APOLLO")) = "Compatible"
  ∧ reason (scoreDonor thirtyDays (λ _, 0%Z) seedPatient (seedDonor "" ""))
    = "Donor Not Verified".
Proof.
  split.
  - destruct (reason_explains thirtyDays (λ _, 0%Z) seedPatient
                (seedDonor "VERIFIED" "HOSP-APOLLO")) as (H & _).
    apply H. reflexivity.
  - destruct (reason_explains thirtyDays (λ _, 0%Z) seedPatient
                (seedDonor "" "")) as (_ & H & _).
    apply H. discriminate.
Defined.

(** ** Approving a match *)

Lemma GetPatient_same_lookup (st st' : WorldState) (id : string) :
  st' !! id = st !! id → GetPatient st' id = GetPatient st id.
Proof. unfold GetPatient, GetState. by intros ->. Qed.

Lemma GetDonor_same_lookup (st st' : WorldState) (id : string) :
  st' !! id = st !! id → GetDonor st' id = GetDonor st id.
Proof. unfold GetDonor, GetState. by intros ->. Qed.

(** X17.  Approving a candidate for a stored patient and a stored donor,
    the three keys being distinct: the patient reads MATCHED, the donor has
    lost every occurrence of the organ the patient needs and nothing else,
    the match is stored under its id, no other key changes, and the donor as
    then read is compatible with no patient who needs that organ. *)
Theorem handleApproveMatch_allocates (now : string) (Date_now : Z)
    (hospitalId : string) (selectedPatient p : Patient.t) (match_ : Candidate)
    (d : Donor.t) (st : WorldState) :
  let matchId := "MATCH-" +:+ pretty Date_now in
  let patientId := Patient.ID selectedPatient in
  let organ := Patient.OrganNeeded selectedPatient in
  let st' := handleApproveMatch now Date_now hospitalId selectedPatient match_ st in
  GetPatient st patientId = Ok p →
  GetDonor st (donorId match_) = Ok d →
  matchId ≠ patientId → matchId ≠ donorId match_ → patientId ≠ donorId match_ →
  GetPatient st' patientId = Ok (Patient.setStatus "MATCHED" p)
  ∧ GetDonor st' (donorId match_)
    = Ok (Donor.setOrgansAvailable
            (Some (removeOrgan organ (Donor.organs d))) d)
  ∧ st' !! matchId
    = Some (Match.marshal
              (newMatch now matchId patientId (donorId match_) organ
                 (score match_)
                 (if String.eqb hospitalId "" then "HOSP-DEFAULT"
                  else hospitalId)))
  ∧ (∀ k, k ≠ matchId → k ≠ patientId → k ≠ donorId match_ →
          st' !! k = st !! k)
  ∧ (∀ Date_now' Date_parse patient' d',
       GetDonor st' (donorId match_) = Ok d' →
       Patient.OrganNeeded patient' = organ →
       compatible (scoreDonor Date_now' Date_parse patient' d') = false).
Proof.
  intros matchId patientId organ st' Hp Hd Hmp Hmd Hpd.
  apply GetPatient_lookup in Hp as (o & Ho & Hfit & ->).
  assert (Hst' : st' = PutState (donorId match_)
                   (Donor.marshal
                      (Donor.setOrgansAvailable
                         (Some (removeOrgan organ (Donor.organs d))) d))
                   (PutState matchId
                      (Match.marshal
                         (newMatch now matchId patientId (donorId match_) organ
                            (score match_)
                            (if String.eqb hospitalId "" then "HOSP-DEFAULT"
                             else hospitalId)))
                      (PutState patientId (markMatched o) st))).
  { unfold st', handleApproveMatch, CreateMatch, GetState. cbn zeta.
    fold matchId patientId organ. rewrite Ho.
    unfold submit, invoke.
    erewrite UpdateDonorStatus_Ok; [reflexivity|].
    rewrite <- Hd. apply GetDonor_same_lookup.
    rewrite !PutState_other by congruence. reflexivity. }
  assert (Hdonor : GetDonor st' (donorId match_)
            = Ok (Donor.setOrgansAvailable
                    (Some (removeOrgan organ (Donor.organs d))) d)).
  { rewrite Hst'. apply GetDonor_PutState_marshal. }
  split; [|split; [|split; [|split]]].
  - rewrite Hst'.
    rewrite (GetPatient_same_lookup
               (PutState patientId (markMatched o) st)).
    + apply GetPatient_PutState_marshal.
    + rewrite !PutState_other by congruence. reflexivity.
  - exact Hdonor.
  - rewrite Hst'. rewrite PutState_other by congruence.
    unfold PutState. apply lookup_insert_eq.
  - intros k Hk1 Hk2 Hk3. rewrite Hst'.
    rewrite !PutState_other by congruence. reflexivity.
  - intros Date_now' Date_parse patient' d' Hd' Horgan.
    rewrite Hdonor in Hd'. injection Hd' as <-. simpl.
    unfold isCompatible, isOrganCompatible. rewrite Horgan.
    assert (Hno : includes
                    (Donor.organs
                       (Donor.setOrgansAvailable
                          (Some (removeOrgan organ (Donor.organs d))) d)) organ
                  = false).
    { destruct (includes _ _) eqn:E; [|done].
      apply includes_elem_of in E. by apply removeOrgan_gone in E. }
    rewrite Hno. by rewrite andb_false_r.
Qed.

Lemma handleApproveMatch_allocates_witness :
  let st' := handleApproveMatch t0 approvalTime "HOSP-APOLLO" seedPatient
               seedCandidate verifiedLedger in
  GetPatient st' "PAT-001" = Ok (Patient.setStatus "MATCHED" seedPatient)
  ∧ organsAt st' "DON-101" = Some ["Liver"]
  ∧ is_Some (st' !! "MATCH-1767225600000")
  ∧ (∀ d', GetDonor st' "DON-101" = Ok d' →
       compatible (scoreDonor thirtyDays (λ _, 0%Z) noHlaPatient d') = false).
Proof.
  intros st'.
  assert (Hp : GetPatient verifiedLedger (Patient.ID seedPatient) = Ok seedPatient)
    by (vm_compute; reflexivity).
  assert (Hd : GetDonor verifiedLedger (donorId seedCandidate)
               = Ok (seedDonor "VERIFIED" "HOSP-APOLLO"))
    by (vm_compute; reflexivity).
  destruct (handleApproveMatch_allocates t0 approvalTime "HOSP-APOLLO"
              seedPatient seedPatient seedCandidate
              (seedDonor "VERIFIED" "HOSP-APOLLO") verifiedLedger Hp Hd)
    as (Hp' & Hd' & Hm & _ & Hnever).
  - vm_compute. discriminate.
  - vm_compute. discriminate.
  - vm_compute. discriminate.
  - split; [exact Hp'|]. split; [|split].
    + unfold organsAt. fold st'.
      change (donorId seedCandidate) with "DON-101" in Hd'.
      fold st' in Hd'. rewrite Hd'. vm_compute. reflexivity.
    + eexists. exact Hm.
    + intros d' Hd''. apply (Hnever thirtyDays (λ _, 0%Z) noHlaPatient d').
      * exact Hd''.
      * reflexivity.
Defined.

(** ** Logging in *)

(** X18.  The login route answers 400 whenever the hospital id or the
    password hash is missing or empty, without asking the chaincode;
    otherwise 200 with the profile exactly when [AuthenticateHospital]
    succeeds, and the same 401 for each of its errors, so that the answer does
    not tell an unknown hospital from an inactive one or a wrong password.
    The profile of a 200 has the members id, location and name only. *)
Theorem api_auth_login_uniform (st : WorldState)
    (hospitalId passwordHash : option string) :
  (truthy hospitalId = false ∨ truthy passwordHash = false →
     api_auth_login st hospitalId passwordHash = Login400)
  ∧ (∀ h p, hospitalId = Some h → passwordHash = Some p → h ≠ "" → p ≠ "" →
       (∀ info, api_auth_login st hospitalId passwordHash = Login200 info
                ↔ AuthenticateHospital st h p = Ok info)
       ∧ (api_auth_login st hospitalId passwordHash = Login401
          ↔ ∃ e, AuthenticateHospital st h p = Err e))
  ∧ (∀ info, api_auth_login st hospitalId passwordHash = Login200 info →
       info.*1 = ["id"; "location"; "name"]
       ∧ member "passwordHash" info = None).
Proof.
  unfold api_auth_login. split; [|split].
  - intros [-> | ->]; [done | by rewrite orb_true_r].
  - intros h p -> -> Hh Hp. simpl.
    apply String.eqb_neq in Hh as ->. apply String.eqb_neq in Hp as ->. simpl.
    destruct (AuthenticateHospital st h p) as [info|e]; split.
    + intros info'. split; congruence.
    + split; [done | by intros [e ?]].
    + intros info'. split; done.
    + split; [eauto | done].
  - intros info.
    destruct (negb (truthy hospitalId) || negb (truthy passwordHash)); [done|].
    unfold AuthenticateHospital.
    destruct (GetHospital st _) as [h|]; [|done].
    destruct (negb (Hospital.IsActive h)); [done|].
    destruct (negb (String.eqb _ _)); [done|].
    by intros [= <-].
Qed.

Lemma api_auth_login_uniform_witness :
  api_auth_login hospitalLedger (Some "HOSP-APOLLO") (Some "") = Login400
  ∧ api_auth_login hospitalLedger (Some "HOSP-APOLLO") (Some apolloHash)
    = Login200 [ ("id", JStr "HOSP-APOLLO"); ("location", JStr "Mumbai");
                 ("name", JStr "Apollo Hospital") ]
  ∧ api_auth_login hospitalLedger (Some "HOSP-NONE") (Some apolloHash) = Login401
  ∧ api_auth_login hospitalLedger (Some "HOSP-APOLLO") (Some "abc123") = Login401.
Proof.
  split; [|split; [|split]].
  - destruct (api_auth_login_uniform hospitalLedger (Some "HOSP-APOLLO") (Some ""))
      as (H400 & _).
    apply H400. right. reflexivity.
  - destruct (api_auth_login_uniform hospitalLedger (Some "HOSP-APOLLO")
                (Some apolloHash)) as (_ & H & _).
    destruct (H "HOSP-APOLLO" apolloHash eq_refl eq_refl) as [H200 _];
      [discriminate | discriminate |].
    apply H200. vm_compute. reflexivity.
  - destruct (api_auth_login_uniform hospitalLedger (Some "HOSP-NONE")
                (Some apolloHash)) as (_ & H & _).
    destruct (H "HOSP-NONE" apolloHash eq_refl eq_refl) as [_ H401];
      [discriminate | discriminate |].
    apply H401. eexists. vm_compute. reflexivity.
  - destruct (api_auth_login_uniform hospitalLedger (Some "HOSP-APOLLO")
                (Some "abc123")) as (_ & H & _).
    destruct (H "HOSP-APOLLO" "abc123" eq_refl eq_refl) as [_ H401];
      [discriminate | discriminate |].
    apply H401. eexists. vm_compute. reflexivity.
Defined.

(** ** The earlier portal *)

(** X19.  The earlier [runMatching] fails on a donor without an organ list
    and otherwise differs from the present one in eligibility by the
    verification test alone: a candidate is compatible now exactly when it
    was compatible then and the donor is verified.  Its HLA score, capped,
    lies between 0 and 100 and is 100 exactly from six common antigens on. *)
Theorem scoreDonorV1_ignores_verification (Date_now : Z)
    (Date_parse : string → Z) (patient : Patient.t) (donor : Donor.t) :
  (scoreDonorV1 patient donor = None ↔ Donor.OrgansAvailable donor = None)
  ∧ (∀ c, scoreDonorV1 patient donor = Some c →
       compatible (scoreDonor Date_now Date_parse patient donor)
       = compatibleV1 c && isVerified donor
       ∧ commonV1 c = common (scoreDonor Date_now Date_parse patient donor)
       ∧ (0 <= Qmin (hlaScoreV1 patient donor) 100 <= 100)%Q
       ∧ ((Qmin (hlaScoreV1 patient donor) 100 == 100)%Q
          ↔ (6 ≤ commonV1 c)%nat)).
Proof.
  unfold scoreDonorV1. split.
  - by destruct (Donor.OrgansAvailable donor).
  - intros c. destruct (Donor.OrgansAvailable donor) as [organs|] eqn:E; [|done].
    intros [= <-]. simpl.
    unfold isCompatible, isBloodCompatible, isOrganCompatible, Donor.organs.
    rewrite E. simpl. split; [done|]. split; [done|].
    unfold hlaScoreV1.
    set (n := length (commonAntigens patient donor)).
    assert (Hlin : (inject_Z (Z.of_nat n) / 6 * 100
                    == inject_Z (Z.of_nat n) * (100 # 6))%Q) by field.
    assert (H0 : (0 <= inject_Z (Z.of_nat n))%Q).
    { rewrite <- (Zle_Qle 0). lia. }
    assert (H6 : (6 ≤ n)%nat ↔ (6 <= inject_Z (Z.of_nat n))%Q).
    { rewrite <- (Zle_Qle 6). lia. }
    set (x := inject_Z (Z.of_nat n)) in *.
    set (s := (x / 6 * 100)%Q) in *.
    destruct (Q.min_spec s 100) as [[Hc Hm] | [Hc Hm]].
    + split; [lra|]. rewrite H6. split; intros H; lra.
    + split; [lra|]. rewrite H6. split; intros H; lra.
Qed.

Lemma scoreDonorV1_ignores_verification_witness :
  ∃ c,
    scoreDonorV1 seedPatient (seedDonor "" "") = Some c
    ∧ compatibleV1 c = true
    ∧ compatible (scoreDonor thirtyDays (λ _, 0%Z) seedPatient (seedDonor "" ""))
      = false.
Proof.
  eexists. split; [reflexivity|]. split; [reflexivity|].
  destruct (scoreDonorV1_ignores_verification thirtyDays (λ _, 0%Z) seedPatient
              (seedDonor "" "")) as [_ H].
  destruct (H _ eq_refl) as (Hc & _). rewrite Hc. reflexivity.
Defined.

(** ** Seeding and verification *)

Lemma PutState_same (st : WorldState) (id : string) (o : jobj) :
  st !! id = Some o → PutState id o st = st.
Proof. unfold PutState. apply insert_id. Qed.

(** X20.  Seeding overwrites.  On any ledger [InitLedger] succeeds, after
    which the two seed patients and the two seed donors read back exactly as
    seeded (WAITING, all organs, no verification), every other key is
    untouched, and seeding again at the same time changes nothing; likewise
    [InitHospitals], after which each seeded hospital authenticates with its
    seeded hash. *)
Theorem seeding_overwrites (now : string) (st : WorldState) :
  (∃ st',
     InitLedger now st = Ok st'
     ∧ (∀ p, p ∈ seedPatients now → GetPatient st' (Patient.ID p) = Ok p)
     ∧ (∀ d, d ∈ seedDonors now → GetDonor st' (Donor.ID d) = Ok d)
     ∧ (∀ k, k ∉ ["PAT-001"; "PAT-002"; "DON-101"; "DON-102"] →
             st' !! k = st !! k)
     ∧ InitLedger now st' = Ok st')
  ∧ (∃ st',
       InitHospitals now st = Ok st'
       ∧ (∀ h, h ∈ seedHospitals now →
            AuthenticateHospital st' (Hospital.ID h) (Hospital.PasswordHash h)
            = Ok (hospitalInfo h))
       ∧ (∀ k, k ∉ ["HOSP-APOLLO"; "HOSP-AIIMS"; "HOSP-FORTIS"] →
               st' !! k = st !! k)
       ∧ InitHospitals now st' = Ok st').
Proof.
  split.
  - eexists. split; [reflexivity|].
    unfold putAll, seedPatients, seedDonors. cbn [foldl].
    set (p1 := Patient.mk "PAT-001" _ _ _ _ _ _ _ _ _).
    set (p2 := Patient.mk "PAT-002" _ _ _ _ _ _ _ _ _).
    set (d1 := Donor.mk "DON-101" _ _ _ _ _ _ _ _ _ _ _ _).
    set (d2 := Donor.mk "DON-102" _ _ _ _ _ _ _ _ _ _ _ _).
    change (Patient.ID p1) with "PAT-001". change (Patient.ID p2) with "PAT-002".
    change (Donor.ID d1) with "DON-101". change (Donor.ID d2) with "DON-102".
    set (st' := PutState "DON-102" _ _).
    assert (H1 : st' !! "PAT-001" = Some (Patient.marshal p1)).
    { unfold st'. rewrite !PutState_other by discriminate.
      unfold PutState. apply lookup_insert_eq. }
    assert (H2 : st' !! "PAT-002" = Some (Patient.marshal p2)).
    { unfold st'. rewrite !PutState_other by discriminate.
      unfold PutState. apply lookup_insert_eq. }
    assert (H3 : st' !! "DON-101" = Some (Donor.marshal d1)).
    { unfold st'. rewrite !PutState_other by discriminate.
      unfold PutState. apply lookup_insert_eq. }
    assert (H4 : st' !! "DON-102" = Some (Donor.marshal d2)).
    { unfold st', PutState. apply lookup_insert_eq. }
    split; [|split; [|split]].
    + intros p. rewrite !elem_of_cons, elem_of_nil.
      intros [-> | [-> | []]]; apply GetPatient_lookup; eexists;
        (split; [eassumption|]); by split.
    + intros d. rewrite !elem_of_cons, elem_of_nil.
      intros [-> | [-> | []]]; apply GetDonor_lookup; eexists;
        (split; [eassumption|]); by split.
    + intros k. rewrite !not_elem_of_cons. intros (? & ? & ? & ? & _).
      unfold st'. rewrite !PutState_other by done. reflexivity.
    + unfold InitLedger, putAll. cbn [foldl seedPatients seedDonors].
      fold p1 p2 d1 d2.
      change (Patient.ID p1) with "PAT-001". change (Patient.ID p2) with "PAT-002".
      change (Donor.ID d1) with "DON-101". change (Donor.ID d2) with "DON-102".
      by rewrite (PutState_same _ _ _ H1), (PutState_same _ _ _ H2),
        (PutState_same _ _ _ H3), (PutState_same _ _ _ H4).
  - eexists. split; [reflexivity|].
    unfold putAll, seedHospitals. cbn [foldl].
    set (h1 := Hospital.mk "HOSP-APOLLO" _ _ _ _ _ _).
    set (h2 := Hospital.mk "HOSP-AIIMS" _ _ _ _ _ _).
    set (h3 := Hospital.mk "HOSP-FORTIS" _ _ _ _ _ _).
    change (Hospital.ID h1) with "HOSP-APOLLO".
    change (Hospital.ID h2) with "HOSP-AIIMS".
    change (Hospital.ID h3) with "HOSP-FORTIS".
    set (st' := PutState "HOSP-FORTIS" _ _).
    assert (H1 : st' !! "HOSP-APOLLO" = Some (Hospital.marshal h1)).
    { unfold st'. rewrite !PutState_other by discriminate.
      unfold PutState. apply lookup_insert_eq. }
    assert (H2 : st' !! "HOSP-AIIMS" = Some (Hospital.marshal h2)).
    { unfold st'. rewrite !PutState_other by discriminate.
      unfold PutState. apply lookup_insert_eq. }
    assert (H3 : st' !! "HOSP-FORTIS" = Some (Hospital.marshal h3)).
    { unfold st', PutState. apply lookup_insert_eq. }
    split; [|split].
    + intros h. rewrite !elem_of_cons, elem_of_nil.
      intros [-> | [-> | [-> | []]]]; unfold AuthenticateHospital, GetHospital,
        GetState.
      * change (Hospital.ID h1) with "HOSP-APOLLO". rewrite H1. reflexivity.
      * change (Hospital.ID h2) with "HOSP-AIIMS". rewrite H2. reflexivity.
      * change (Hospital.ID h3) with "HOSP-FORTIS". rewrite H3. reflexivity.
    + intros k. rewrite !not_elem_of_cons. intros (? & ? & ? & _).
      unfold st'. rewrite !PutState_other by done. reflexivity.
    + unfold InitHospitals, putAll. cbn [foldl seedHospitals].
      fold h1 h2 h3.
      change (Hospital.ID h1) with "HOSP-APOLLO".
      change (Hospital.ID h2) with "HOSP-AIIMS".
      change (Hospital.ID h3) with "HOSP-FORTIS".
      by rewrite (PutState_same _ _ _ H1), (PutState_same _ _ _ H2),
        (PutState_same _ _ _ H3).
Qed.

(** X21.  Verification gates matching.  A donor just created is compatible
    with no patient, and neither is a donor just rejected, the reason shown
    being "Donor Not Verified"; a donor just verified is compatible with
    exactly the patients whose blood type can receive from its own and whose
    needed organ it has. *)
Theorem verification_gates_matching (now : string) (st : WorldState)
    (id : string) :
  (∀ name email phone bloodType hla organs ipfsHash consentHash st' d,
     CreateDonor now st id name email phone bloodType hla organs ipfsHash
       consentHash = Ok st' →
     GetDonor st' id = Ok d →
     ∀ Date_now Date_parse patient,
       compatible (scoreDonor Date_now Date_parse patient d) = false
       ∧ reason (scoreDonor Date_now Date_parse patient d) = "Donor Not Verified")
  ∧ (∀ hospitalId st' d,
       VerifyDonor st id hospitalId "REJECTED" = Ok st' →
       GetDonor st' id = Ok d →
       ∀ Date_now Date_parse patient,
         compatible (scoreDonor Date_now Date_parse patient d) = false
         ∧ reason (scoreDonor Date_now Date_parse patient d)
           = "Donor Not Verified")
  ∧ (∀ hospitalId st' d0 d,
       GetDonor st id = Ok d0 →
       VerifyDonor st id hospitalId "VERIFIED" = Ok st' →
       GetDonor st' id = Ok d →
       ∀ Date_now Date_parse patient,
         compatible (scoreDonor Date_now Date_parse patient d)
         = canReceiveFrom (Patient.BloodType patient) (Donor.BloodType d0)
           && includes (Donor.organs d0) (Patient.OrganNeeded patient)).
Proof.
  assert (Hno : ∀ d, isVerified d = false →
            ∀ Date_now Date_parse patient,
              compatible (scoreDonor Date_now Date_parse patient d) = false
              ∧ reason (scoreDonor Date_now Date_parse patient d)
                = "Donor Not Verified").
  { intros d Hv Dn Dp patient. simpl. unfold isCompatible. rewrite Hv.
    by rewrite andb_false_r. }
  split; [|split].
  - intros name email phone bloodType hla organs ipfsHash consentHash st' d.
    unfold CreateDonor. destruct (RecordExists st id); [done|].
    destruct (unmarshalOrgans organs) as [l|]; [|done].
    intros [= <-]. rewrite GetDonor_PutState_marshal. intros [= <-].
    apply Hno. by destruct l.
  - intros hospitalId st' d. unfold VerifyDonor.
    destruct (GetDonor st id) as [d0|] eqn:E; [|done]. simpl.
    intros [= <-]. rewrite GetDonor_PutState_marshal. intros [= <-].
    apply Hno.
    by destruct d0 as [? ? ? ? ? ? [l|] ? ? ? ? ? ?].
  - intros hospitalId st' d0 d Hd0. unfold VerifyDonor. rewrite Hd0. simpl.
    intros [= <-]. rewrite GetDonor_PutState_marshal. intros [= <-].
    intros Dn Dp patient. simpl.
    unfold isCompatible, isBloodCompatible, isOrganCompatible, isVerified.
    destruct d0 as [? ? ? ? ? ? [l|] ? ? ? ? ? ?]; simpl; by rewrite andb_true_r.
Qed.

Lemma verification_gates_matching_witness :
  ∃ st' d,
    VerifyDonor seededLedger "DON-101" "HOSP-APOLLO" "VERIFIED" = Ok st'
    ∧ GetDonor st' "DON-101" = Ok d
    ∧ compatible (scoreDonor thirtyDays (λ _, 0%Z) seedPatient d) = true
    ∧ compatible (scoreDonor thirtyDays (λ _, 0%Z) seedPatient (seedDonor "" ""))
      = false.
Proof.
  assert (Hd0 : GetDonor seededLedger "DON-101" = Ok (seedDonor "" ""))
    by (vm_compute; reflexivity).
  assert (Hv : ∃ st', VerifyDonor seededLedger "DON-101" "HOSP-APOLLO" "VERIFIED"
                      = Ok st'
                      ∧ GetDonor st' "DON-101"
                        = Ok (seedDonor "VERIFIED" "HOSP-APOLLO"))
    by (eexists; split; vm_compute; reflexivity).
  destruct Hv as (st' & Hv & Hd).
  destruct (verification_gates_matching t0 seededLedger "DON-101")
    as (_ & _ & Hverified).
  exists st', (seedDonor "VERIFIED" "HOSP-APOLLO").
  split; [exact Hv|]. split; [exact Hd|]. split; [|reflexivity].
  rewrite (Hverified "HOSP-APOLLO" st' (seedDonor "" "")
             (seedDonor "VERIFIED" "HOSP-APOLLO") Hd0 Hv Hd).
  reflexivity.
Defined.
